(** * affordance_gym: perception-policy training script

    A shallow embedding of
      - [scripts/perception_policy_train.py] ([load_dataset], [main]) and
      - [src/motion_planning/utils.py]       ([parse_arguments]),
    together with the properties of the dataset assembler, the argument
    parser and the training loop that the design document states.

    Conventions of the embedding.
      - Python exceptions are values of [exn]; fallible code lives in
        [result].  Code with side effects ([main]) lives in [M], a writer
        over the [event]s it performs layered on [result]: the events that
        happened before an exception stay in the log.
      - A floating-point number is an [npfloat]: a rational, an infinity
        or NaN.  The arrays of an episode file are numpy float64 arrays, so
        what [load_dataset] computes on them is binary64 arithmetic: the
        exact result rounded to nearest, ties to even, to 53 significant
        bits, with gradual underflow and overflow to an infinity
        ([round_to binary64]); [torch.Tensor] then stores float32
        ([round_to binary32]).  The two zeros are not told apart (no
        comparison of the script does).  [int(n * 0.7)] in [main] is
        binary64 as well.  The affine map that [main] applies to the
        decoder's output and the mean of the losses are written with exact
        arithmetic on the finite values.
      - numpy arrays carry their shape next to their rows, so that an empty
        array still has a column count.
      - torch, the trajectory VAE, the kinematics function and the plotting
        helpers are not part of the repository sources that are embedded;
        they are Section variables.  Randomness (numpy's and torch's
        generators) is an explicit argument. *)

From Stdlib Require Import ZArith QArith Qpower Qminmax Lia List String Ascii Bool Permutation.
From stdpp Require Import base option list strings gmap.

Local Open Scope string_scope.
Local Open Scope list_scope.
Local Open Scope Z_scope.

(** ** Exceptions and the error monad *)

Inductive exn : Type :=
| ValueError
| IndexError
| TypeError
| OSError
| AssertionError
| AttributeError (attr : string)
| ArgumentError (option_string : string)
| OverflowError
| SystemExit (code : Z).

Inductive result (A : Type) : Type :=
| Ok (a : A)
| Err (e : exn).
Arguments Ok {A} a.
Arguments Err {A} e.

#[global] Instance result_ret : MRet result := fun A a => Ok a.
#[global] Instance result_bind : MBind result := fun A B f r =>
  match r with
  | Ok a => f a
  | Err e => Err e
  end.

Definition is_ok {A : Type} (r : result A) : bool :=
  match r with Ok _ => true | Err _ => false end.

(** [assert c] *)
Definition py_assert (c : bool) : result unit :=
  if c then Ok tt else Err AssertionError.

(** Monadic map over a list, left to right; the first exception wins. *)
Fixpoint mapM {A B : Type} (f : A -> result B) (l : list A) : result (list B) :=
  match l with
  | [] => Ok []
  | a :: l' =>
      b ← f a;
      bs ← mapM f l';
      Ok (b :: bs)
  end.

(** ** Floating-point values *)

Module NpFloat.

Inductive npfloat : Type :=
| Fin (q : Q)
| PInf
| NInf
| NaN.

Definition Qltb (a b : Q) : bool := negb (Qle_bool b a).

(** *** Binary formats

    [prec] significant bits; a finite number is an integer multiple of
    [2^emin] (the least subnormal) and lies below [2^emax]. *)
Record format : Type := mkFormat {
  prec : Z;
  emin : Z;
  emax : Z
}.

Definition binary64 : format := {| prec := 53; emin := -1074; emax := 1024 |}.
Definition binary32 : format := {| prec := 24; emin := -149; emax := 128 |}.

(** The integer nearest to [num / den], ties to the even one. *)
Definition nearest_even (num den : Z) : Z :=
  let q := num / den in
  let r := num mod den in
  if 2 * r <? den then q
  else if den <? 2 * r then q + 1
  else if Z.even q then q else q + 1.

(** [floor (log2 (a / d))] for positive [a] and [d]. *)
Definition floor_log2 (a d : Z) : Z :=
  let l := Z.log2 a - Z.log2 d in
  if d * 2 ^ Z.max l 0 <=? a * 2 ^ Z.max (- l) 0 then l else l - 1.

(** The exponent of the unit in the last place of [a / d]. *)
Definition cexp (fmt : format) (a d : Z) : Z :=
  Z.max (floor_log2 a d - (prec fmt - 1)) (emin fmt).

(** [a / d > 0] rounded: the pair [(m, e)] stands for [m * 2^e]. *)
Definition round_pos (fmt : format) (a d : Z) : Z * Z :=
  let e := cexp fmt a d in
  (nearest_even (a * 2 ^ Z.max (- e) 0) (d * 2 ^ Z.max e 0), e).

Definition pow2 (e : Z) : Q :=
  if 0 <=? e then inject_Z (2 ^ e) else 1 # Z.to_pos (2 ^ (- e)).

(** The rational [m * 2^e], in lowest terms. *)
Definition float_value (m e : Z) : Q := Qred (inject_Z m * pow2 e).

(** Rounding to nearest, ties to even; what reaches [2^emax] overflows. *)
Definition round_to (fmt : format) (q : Q) : npfloat :=
  let q := Qred q in
  match Qnum q with
  | 0 => Fin 0
  | Zpos a =>
      let '(m, e) := round_pos fmt (Zpos a) (Zpos (Qden q)) in
      if 2 ^ (emax fmt - e) <=? m then PInf else Fin (float_value m e)
  | Zneg a =>
      let '(m, e) := round_pos fmt (Zpos a) (Zpos (Qden q)) in
      if 2 ^ (emax fmt - e) <=? m then NInf else Fin (float_value (- m) e)
  end.

(** The result of an operation, stored in a format. *)
Definition round_result (fmt : format) (x : npfloat) : npfloat :=
  match x with
  | Fin q => round_to fmt q
  | _ => x
  end.

(** *** Arithmetic: the exact results *)

(** The infinity with the sign of [q] times the sign of the infinity
    ([pos] says the infinity is positive); a zero [q] gives NaN. *)
Definition inf_times (pos : bool) (q : Q) : npfloat :=
  if Qeq_bool q 0 then NaN
  else if xorb pos (Qltb 0 q) then NInf else PInf.

Definition fadd (a b : npfloat) : npfloat :=
  match a, b with
  | NaN, _ | _, NaN => NaN
  | Fin x, Fin y => Fin (x + y)
  | PInf, NInf | NInf, PInf => NaN
  | PInf, _ | _, PInf => PInf
  | NInf, _ | _, NInf => NInf
  end.

Definition fneg (a : npfloat) : npfloat :=
  match a with
  | Fin x => Fin (- x)
  | PInf => NInf
  | NInf => PInf
  | NaN => NaN
  end.

Definition fsub (a b : npfloat) : npfloat :=
  match a, b with
  | NaN, _ | _, NaN => NaN
  | Fin x, Fin y => Fin (x - y)
  | PInf, PInf | NInf, NInf => NaN
  | PInf, _ | _, NInf => PInf
  | NInf, _ | _, PInf => NInf
  end.

Definition fmul (a b : npfloat) : npfloat :=
  match a, b with
  | NaN, _ | _, NaN => NaN
  | Fin x, Fin y => Fin (x * y)
  | PInf, Fin y | Fin y, PInf => inf_times true y
  | NInf, Fin y | Fin y, NInf => inf_times false y
  | PInf, PInf | NInf, NInf => PInf
  | PInf, NInf | NInf, PInf => NInf
  end.

(** Division.  A finite value over zero is an infinity of its sign, and
    0/0 is NaN (numpy warns and carries on). *)
Definition fdiv (a b : npfloat) : npfloat :=
  match a, b with
  | NaN, _ | _, NaN => NaN
  | Fin x, Fin y =>
      if Qeq_bool y 0 then
        (if Qeq_bool x 0 then NaN else if Qltb 0 x then PInf else NInf)
      else Fin (x / y)
  | Fin _, (PInf | NInf) => Fin 0
  | PInf, Fin y => if Qltb y 0 then NInf else PInf
  | NInf, Fin y => if Qltb y 0 then PInf else NInf
  | (PInf | NInf), (PInf | NInf) => NaN
  end.

(** numpy's float64 subtraction and division. *)
Definition fsub64 (a b : npfloat) : npfloat := round_result binary64 (fsub a b).
Definition fdiv64 (a b : npfloat) : npfloat := round_result binary64 (fdiv a b).

(** [a < b]: false as soon as one side is NaN. *)
Definition flt (a b : npfloat) : bool :=
  match a, b with
  | NaN, _ | _, NaN => false
  | Fin x, Fin y => Qltb x y
  | NInf, NInf => false
  | NInf, _ => true
  | _, NInf => false
  | PInf, _ => false
  | Fin _, PInf => true
  end.

(** [a == b]: false as soon as one side is NaN. *)
Definition feqb (a b : npfloat) : bool :=
  match a, b with
  | Fin x, Fin y => Qeq_bool x y
  | PInf, PInf | NInf, NInf => true
  | _, _ => false
  end.

Definition is_nan (a : npfloat) : bool :=
  match a with NaN => true | _ => false end.

(** The binary step of [np.min] / [np.max]: NaN propagates. *)
Definition fmin (a b : npfloat) : npfloat :=
  if is_nan a then NaN else if is_nan b then NaN
  else if flt b a then b else a.

Definition fmax (a b : npfloat) : npfloat :=
  if is_nan a then NaN else if is_nan b then NaN
  else if flt a b then b else a.

(** [np.min(a)] and [np.max(a)] of a one-dimensional array: a zero-size
    array has no minimum. *)
Definition np_min (a : list npfloat) : result npfloat :=
  match a with
  | [] => Err ValueError
  | x :: xs => Ok (fold_left fmin xs x)
  end.

Definition np_max (a : list npfloat) : result npfloat :=
  match a with
  | [] => Err ValueError
  | x :: xs => Ok (fold_left fmax xs x)
  end.

(** [np.mean(l)] of a Python list of floats: the mean of an empty list is
    NaN (with a warning), not an exception. *)
Definition np_sum (l : list npfloat) : npfloat := fold_left fadd l (Fin 0).

Definition np_mean (l : list npfloat) : npfloat :=
  fdiv (np_sum l) (Fin (inject_Z (Z.of_nat (length l)))).

(** Equality of values as numbers: rationals are compared by [Qeq]. *)
Definition feq (a b : npfloat) : Prop :=
  match a, b with
  | Fin x, Fin y => Qeq x y
  | PInf, PInf | NInf, NInf | NaN, NaN => True
  | _, _ => False
  end.

(** [0 <= a <= 1] for a finite [a]. *)
Definition in_unit_interval (a : npfloat) : Prop :=
  match a with
  | Fin x => (0 <= x)%Q /\ (x <= 1)%Q
  | _ => False
  end.

End NpFloat.
Import NpFloat.

(** ** src/motion_planning/utils.py *)

Module Utils.

(** Values an attribute of the argument namespace can hold. *)
Inductive value : Type :=
| VNone
| VStr (s : string)
| VInt (z : Z)
| VFloat (q : Q)
| VBool (b : bool).

(** The namespace [argparse] returns: attribute name to value. *)
Abbreviation namespace := (gmap string value).

(** [args.name] *)
Definition getattr (ns : namespace) (name : string) : result value :=
  match ns !! name with
  | Some v => Ok v
  | None => Err (AttributeError name)
  end.

(** *** The part of [argparse] that [parse_arguments] uses *)

Inductive arg_type : Type := type_str | type_int | type_float.

Inductive action_kind : Type :=
| store (ty : arg_type)
| store_true
| store_false
| help.

(** A registered action.  [default = None] is [argparse.SUPPRESS]: the
    attribute is not created. *)
Record action : Type := mkAction {
  option_strings : list string;
  dest : string;
  kind : action_kind;
  default : option value
}.

Record ArgumentParser : Type := mkParser {
  actions : list action;
  defaults : gmap string value        (* parser._defaults *)
}.

(** [argparse.ArgumentParser(description=...)]: only the help action. *)
Definition new_parser : ArgumentParser :=
  {| actions := [ {| option_strings := ["-h"; "--help"]; dest := "help";
                     kind := help; default := None |} ];
     defaults := ∅ |}.

Fixpoint lstrip_dash (s : string) : string :=
  match s with
  | String "-" s' => lstrip_dash s'
  | _ => s
  end.

Fixpoint dash_to_underscore (s : string) : string :=
  match s with
  | EmptyString => EmptyString
  | String c s' => String (if Ascii.eqb c "-" then "_"%char else c) (dash_to_underscore s')
  end.

(** The attribute name [argparse] derives from a long option string. *)
Definition dest_of_option (opt : string) : string :=
  dash_to_underscore (lstrip_dash opt).

Definition kind_default (k : action_kind) : option value :=
  match k with
  | store _ => Some VNone
  | store_true => Some (VBool false)
  | store_false => Some (VBool true)
  | help => None
  end.

Definition has_option (p : ArgumentParser) (opt : string) : bool :=
  existsb (fun a => existsb (String.eqb opt) (option_strings a)) (actions p).

(** [parser.add_argument(opt, dest=..., action=..., type=..., default=...)].
    Registering an option string twice is an [ArgumentError] (the parser's
    conflict handler is the default one). *)
Definition add_argument (p : ArgumentParser) (opt : string) (k : action_kind)
    (dest_kw : option string) (default_kw : option value) : result ArgumentParser :=
  let d := match dest_kw with Some d => d | None => dest_of_option opt end in
  let dflt :=
    match default_kw with
    | Some v => Some v
    | None =>
        match defaults p !! d with
        | Some v => Some v
        | None => kind_default k
        end
    end in
  if has_option p opt then Err (ArgumentError opt)
  else Ok {| actions := actions p ++
                [ {| option_strings := [opt]; dest := d; kind := k; default := dflt |} ];
             defaults := defaults p |}.

(** [parser.set_defaults(d=v)]: recorded in the parser and pushed into
    every action already registered for [d]. *)
Definition set_defaults (p : ArgumentParser) (d : string) (v : value) : ArgumentParser :=
  {| actions := map (fun a =>
                  if String.eqb (dest a) d
                  then {| option_strings := option_strings a; dest := dest a;
                          kind := kind a; default := Some v |}
                  else a) (actions p);
     defaults := <[d := v]> (defaults p) |}.

(** One command-line argument after lexing and conversion: a bare option
    or an option with its converted value.  (Splitting [--opt=value],
    prefix abbreviations and [int()]/[float()] of the text are lexical
    matters; an argument whose text does not convert shows up here as a
    value of the wrong type.) *)
Inductive cli_arg : Type :=
| Flag (opt : string)
| Opt (opt : string) (v : value).

Definition find_action (p : ArgumentParser) (opt : string) : option action :=
  find (fun a => existsb (String.eqb opt) (option_strings a)) (actions p).

Definition value_has_type (ty : arg_type) (v : value) : bool :=
  match ty, v with
  | type_str, VStr _ | type_int, VInt _ | type_float, VFloat _ => true
  | _, _ => false
  end.

(** The namespace before the command line is read: every action's default
    (unless suppressed), then the parser-level defaults not yet present. *)
Definition initial_namespace (p : ArgumentParser) : namespace :=
  let ns := fold_left (fun (ns : namespace) a =>
              match ns !! dest a, default a with
              | None, Some v => <[dest a := v]> ns
              | _, _ => ns
              end) (actions p) (∅ : namespace) in
  ns ∪ defaults p.

(** Consuming the command line.  The boolean records that something was
    not recognised, which is reported once everything has been read. *)
Fixpoint consume (p : ArgumentParser) (argv : list cli_arg) (ns : namespace)
    (extras : bool) : result (namespace * bool) :=
  match argv with
  | [] => Ok (ns, extras)
  | Flag opt :: rest =>
      match find_action p opt with
      | None => consume p rest ns true
      | Some a =>
          match kind a with
          | store_true => consume p rest (<[dest a := VBool true]> ns) extras
          | store_false => consume p rest (<[dest a := VBool false]> ns) extras
          | help => Err (SystemExit 0)
          | store _ => Err (SystemExit 2)          (* expected one argument *)
          end
      end
  | Opt opt v :: rest =>
      match find_action p opt with
      | None => consume p rest ns true
      | Some a =>
          match kind a with
          | store ty =>
              if value_has_type ty v
              then consume p rest (<[dest a := v]> ns) extras
              else Err (SystemExit 2)              (* invalid value *)
          | store_true => consume p rest (<[dest a := VBool true]> ns) true
          | store_false => consume p rest (<[dest a := VBool false]> ns) true
          | help => Err (SystemExit 0)
          end
      end
  end.

(** [parser.parse_args()] on the given command line. *)
Definition parse_args (p : ArgumentParser) (argv : list cli_arg) : result namespace :=
  '(ns, extras) ← consume p argv (initial_namespace p) false;
  if (extras : bool) then Err (SystemExit 2) else Ok ns.

(** *** [parse_arguments] *)

Definition when (c : bool) (f : ArgumentParser -> result ArgumentParser)
    (p : ArgumentParser) : result ArgumentParser :=
  if c then f p else Ok p.

(** The parser [parse_arguments] has built when it calls [parse_args]. *)
Definition build_parser (behavioural_vae policy gibson debug feedforward : bool)
    : result ArgumentParser :=
  let parser := new_parser in
  parser ← when behavioural_vae (fun parser =>
    parser ← add_argument parser "--vae-name" (store type_str) None (Some (VStr "mse_fc_v1"));
    parser ← add_argument parser "--latent-dim" (store type_int) None (Some (VInt 5));
    parser ← add_argument parser "--num_joints" (store type_int) None (Some (VInt 7));
    parser ← add_argument parser "--num_actions" (store type_int) None (Some (VInt 24));
    parser ← add_argument parser "--duration" (store type_float) None (Some (VFloat (1 # 2)));
    parser ← add_argument parser "--conv" store_true (Some "conv") None;
    parser ← add_argument parser "--no-conv" store_false (Some "conv") None;
    let parser := set_defaults parser "conv" (VBool false) in
    parser ← add_argument parser "--conv-channel" (store type_int) None (Some (VInt 2));
    add_argument parser "--kernel-row" (store type_int) None (Some (VInt 4))) parser;
  parser ← when policy (fun parser =>
    parser ← add_argument parser "--folder-name" (store type_str) None (Some (VStr "example"));
    parser ← add_argument parser "--iterations" (store type_int) None (Some (VInt 1000));
    parser ← add_argument parser "--batch-size" (store type_int) None (Some (VInt 5));
    parser ← add_argument parser "--lr" (store type_float) None (Some (VFloat (1 # 1000)));
    parser ← add_argument parser "--debug" store_true (Some "debug") None;
    let parser := set_defaults parser "debug" (VBool false) in
    parser ← add_argument parser "--random-goal" store_true (Some "random_goal") None;
    let parser := set_defaults parser "random_goal" (VBool false) in
    parser ← add_argument parser "--test" store_false (Some "train") None;
    Ok (set_defaults parser "train" (VBool true))) parser;
  parser ← when gibson (fun parser =>
    parser ← add_argument parser "--g-name" (store type_str) None (Some (VStr "rgb_test"));
    add_argument parser "--g-latent" (store type_int) None (Some (VInt 10))) parser;
  parser ← when debug (fun parser =>
    add_argument parser "--dataset-name" (store type_str) None
      (Some (VStr "lumi_rtt_star_v2"))) parser;
  parser ← when feedforward (fun parser =>
    parser ← add_argument parser "--random-goal" store_true (Some "random_goal") None;
    let parser := set_defaults parser "random_goal" (VBool false) in
    parser ← add_argument parser "--policy-name" (store type_str) None (Some (VStr "example"));
    parser ← add_argument parser "--num-steps" (store type_int) None (Some (VInt 10));
    add_argument parser "--model-index" (store type_int) None (Some (VInt (-1)))) parser;
  Ok parser.

(** [parse_arguments(behavioural_vae, policy, gibson, debug, feedforward)]
    on the command line [argv]. *)
Definition parse_arguments (behavioural_vae policy gibson debug feedforward : bool)
    (argv : list cli_arg) : result namespace :=
  parser ← build_parser behavioural_vae policy gibson debug feedforward;
  parse_args parser argv.

(** Hard-wired roots at the end of the module. *)
Definition BEHAVIOUR_ROOT : string :=
  "/home/aleksi/hacks/behavioural_ws/behaviroural_vae/behavioural_vae".
Definition POLICY_ROOT : string := "/home/aleksi/mujoco_ws/src/motion_planning/rl_log".
Definition GIBSON_ROOT : string := "/home/aleksi/hacks/vae_ws/gibson/gibson".

End Utils.
Import Utils.

(** ** scripts/perception_policy_train.py: the dataset assembler *)

Module Train.

(** *** Arrays *)

(** A two-dimensional array: [ncols] is [shape[1]], the rows are the
    entries along axis 0. *)
Record ndarray2 (A : Type) : Type := mkArray2 {
  ncols : nat;
  rows : list (list A)
}.
Arguments mkArray2 {A} ncols rows.
Arguments ncols {A} _.
Arguments rows {A} _.

(** A three-dimensional array of shape [(length cells, nsteps, ndim)]:
    every cell has [nsteps] rows of [ndim] entries. *)
Record ndarray3 (A : Type) : Type := mkArray3 {
  nsteps : nat;
  ndim : nat;
  cells : list (list (list A))
}.
Arguments mkArray3 {A} nsteps ndim cells.
Arguments nsteps {A} _.
Arguments ndim {A} _.
Arguments cells {A} _.

(** [a.shape[0]] *)
Definition nrows {A : Type} (a : ndarray2 A) : nat := length (rows a).

(** The data agrees with the declared shape. *)
Definition wf_array2 {A : Type} (a : ndarray2 A) : Prop :=
  Forall (fun r => length r = ncols a) (rows a).

Definition wf_array3 {A : Type} (a : ndarray3 A) : Prop :=
  Forall (fun s => length s = nsteps a /\ Forall (fun r => length r = ndim a) s) (cells a).

(** One episode file: what [np.load] returns, indexed 0 to 5. *)
Record episode_file : Type := mkEpisode {
  ep_latents : ndarray3 npfloat;            (* dataset[0] *)
  ep_camera_distances : list npfloat;       (* dataset[1] *)
  ep_azimuths : list npfloat;               (* dataset[2] *)
  ep_elevations : list npfloat;             (* dataset[3] *)
  ep_unused : list npfloat;                 (* dataset[4], never read *)
  ep_target_coords : ndarray2 npfloat       (* dataset[5] *)
}.

(** The directories of the disk: path to the files [os.listdir] lists,
    in listing order. *)
Abbreviation disk := (gmap string (list episode_file)).

(** [a[:, 0, :]]: the first entry along axis 1 of every sample.  An axis
    of size 0 has no index 0. *)
Definition slice_first_step (a : ndarray3 npfloat) : result (ndarray2 npfloat) :=
  match nsteps a with
  | O => Err IndexError
  | S _ => Ok {| ncols := ndim a; rows := map (fun s => hd [] s) (cells a) |}
  end.

(** [np.concatenate] of a Python list of one-dimensional arrays. *)
Definition np_concatenate1 {A : Type} (arrays : list (list A)) : result (list A) :=
  match arrays with
  | [] => Err ValueError
  | _ => Ok (concat arrays)
  end.

(** [np.concatenate] along axis 0 of two-dimensional arrays: the column
    counts must agree. *)
Definition np_concatenate2 {A : Type} (arrays : list (ndarray2 A)) : result (ndarray2 A) :=
  match arrays with
  | [] => Err ValueError
  | a :: rest =>
      if forallb (fun b => Nat.eqb (ncols b) (ncols a)) rest
      then Ok {| ncols := ncols a; rows := concat (map rows arrays) |}
      else Err ValueError
  end.

(** [v[:, None]]: a vector as a one-column array. *)
Definition as_column {A : Type} (v : list A) : ndarray2 A :=
  {| ncols := 1; rows := map (fun x => [x]) v |}.

(** [np.concatenate(arrays, axis=1)]: the row counts must agree. *)
Fixpoint zip_rows {A : Type} (a b : list (list A)) : list (list A) :=
  match a, b with
  | r :: a', s :: b' => (r ++ s) :: zip_rows a' b'
  | _, _ => []
  end.

Definition np_concatenate_axis1 {A : Type} (arrays : list (ndarray2 A)) : result (ndarray2 A) :=
  match arrays with
  | [] => Err ValueError
  | a :: rest =>
      if forallb (fun b => Nat.eqb (nrows b) (nrows a)) rest
      then Ok (fold_left (fun acc b =>
                 {| ncols := ncols acc + ncols b; rows := zip_rows (rows acc) (rows b) |})
               rest a)
      else Err ValueError
  end.

(** [a * b] on one-dimensional boolean arrays, with numpy's broadcasting
    of a length-1 operand. *)
Fixpoint zip_and (a b : list bool) : list bool :=
  match a, b with
  | x :: a', y :: b' => (x && y) :: zip_and a' b'
  | _, _ => []
  end.

Definition mask_mul (a b : list bool) : result (list bool) :=
  if Nat.eqb (length a) (length b) then Ok (zip_and a b)
  else match a, b with
       | [x], _ => Ok (map (andb x) b)
       | _, [y] => Ok (map (fun x => x && y) a)
       | _, _ => Err ValueError
       end.

(** [a[mask]] along axis 0 with a boolean mask: the mask must have one
    entry per row. *)
Fixpoint select_rows {A : Type} (l : list A) (mask : list bool) : list A :=
  match l, mask with
  | x :: l', b :: mask' => if b then x :: select_rows l' mask' else select_rows l' mask'
  | _, _ => []
  end.

Definition mask_index {A : Type} (a : ndarray2 A) (mask : list bool) : result (ndarray2 A) :=
  if Nat.eqb (length mask) (nrows a)
  then Ok {| ncols := ncols a; rows := select_rows (rows a) mask |}
  else Err IndexError.

(** [l[i]] for one integer index: negative indices count from the end. *)
Definition py_index {A : Type} (l : list A) (i : Z) : result A :=
  let n := Z.of_nat (length l) in
  let j := if i <? 0 then i + n else i in
  if (0 <=? j) && (j <? n)
  then match nth_error l (Z.to_nat j) with
       | Some x => Ok x
       | None => Err IndexError
       end
  else Err IndexError.

(** [a[indices]] along axis 0 with an integer index array. *)
Definition take_rows {A : Type} (a : ndarray2 A) (indices : list Z) : result (ndarray2 A) :=
  rs ← mapM (py_index (rows a)) indices;
  Ok {| ncols := ncols a; rows := rs |}.

(** [np.random.random_integers(low, high, size)]: [size] draws from the
    closed range [low..high].  The generator is the stream [raw] of its
    successive raw outputs. *)
Definition random_integers (raw : nat -> Z) (low high : Z) (size : nat) : list Z :=
  map (fun i => low + raw i mod (high - low + 1)) (seq 0 size).

(** [os.path.join(a, b)] *)
Definition os_path_join (a b : string) : string :=
  if String.prefix "/" b then b
  else if (String.eqb a "") || String.eqb (substring (String.length a - 1) 1 a) "/"
       then (a ++ b)%string
       else (a ++ "/" ++ b)%string.

(** [os.listdir(path)] *)
Definition os_listdir (d : disk) (path : string) : result (list episode_file) :=
  match d !! path with
  | Some files => Ok files
  | None => Err OSError
  end.

(** Truth value of an object in an [if]. *)
Definition truthy (v : value) : bool :=
  match v with
  | VNone => false
  | VStr s => negb (String.eqb s "")
  | VInt z => negb (z =? 0)
  | VFloat q => negb (Qeq_bool q 0)
  | VBool b => b
  end.

Definition as_str (v : value) : result string :=
  match v with
  | VStr s => Ok s
  | _ => Err TypeError
  end.

(** [torch.Tensor(a)] of a float64 array: a float32 tensor.  Every entry
    is rounded to binary32; what is too large becomes an infinity. *)
Definition torch_Tensor (a : ndarray2 npfloat) : ndarray2 npfloat :=
  {| ncols := ncols a; rows := map (map (round_result binary32)) (rows a) |}.

(** [data.TensorDataset(inputs, targets)]: both tensors must have the same
    first dimension. *)
Record TensorDataset : Type := mkDataset {
  inputs_of : ndarray2 npfloat;
  targets_of : ndarray2 npfloat
}.

Definition new_TensorDataset (inputs targets : ndarray2 npfloat) : result TensorDataset :=
  _ ← py_assert (Nat.eqb (nrows inputs) (nrows targets));
  Ok {| inputs_of := inputs; targets_of := targets |}.

(** [dataset.__len__()] *)
Definition dataset_len (d : TensorDataset) : nat := nrows (inputs_of d).

(** *** [load_dataset] *)

(** The five Python lists the loop over the files fills. *)
Record columns : Type := mkColumns {
  col_latents : list (ndarray2 npfloat);
  col_camera_distances : list (list npfloat);
  col_azimuths : list (list npfloat);
  col_elevations : list (list npfloat);
  col_target_coords : list (ndarray2 npfloat)
}.

Definition no_columns : columns :=
  {| col_latents := []; col_camera_distances := []; col_azimuths := [];
     col_elevations := []; col_target_coords := [] |}.

(** The body of [for file in data_files]. *)
Definition read_file (acc : columns) (dataset : episode_file) : result columns :=
  latent ← slice_first_step (ep_latents dataset);
  Ok {| col_latents := col_latents acc ++ [latent];
        col_camera_distances := col_camera_distances acc ++ [ep_camera_distances dataset];
        col_azimuths := col_azimuths acc ++ [ep_azimuths dataset];
        col_elevations := col_elevations acc ++ [ep_elevations dataset];
        col_target_coords := col_target_coords acc ++ [ep_target_coords dataset] |}.

Fixpoint read_files (data_files : list episode_file) (acc : columns) : result columns :=
  match data_files with
  | [] => Ok acc
  | file :: rest =>
      acc' ← read_file acc file;
      read_files rest acc'
  end.

(** [(a - np.min(a)) / (np.max(a) - np.min(a))] on a float64 array: the
    two differences and the quotient are each rounded. *)
Definition normalize (a : list npfloat) : result (list npfloat) :=
  lo ← np_min a;
  hi ← np_max a;
  Ok (map (fun x => fdiv64 (fsub64 x lo) (fsub64 hi lo)) a).

(** The mask of the fixed-camera branch, as the script builds it. *)
Definition fixed_camera_mask (camera_distances azimuths elevations : list npfloat)
    : result (list bool) :=
  distance ← py_index camera_distances 0;
  azimuth ← py_index azimuths 0;
  elevation ← py_index elevations 0;
  let fixed_indices := map (fun x => feqb x distance) camera_distances in
  fixed_indices ← mask_mul fixed_indices (map (fun x => feqb x azimuth) elevations);
  mask_mul fixed_indices (map (fun x => feqb x elevation) azimuths).

(** The arrays after concatenation and normalisation. *)
Record assembled : Type := mkAssembled {
  as_latents : ndarray2 npfloat;
  as_camera_distances : list npfloat;
  as_azimuths : list npfloat;
  as_elevations : list npfloat;
  as_target_coords : ndarray2 npfloat
}.

Definition data_path_of (name : string) : string :=
  os_path_join (os_path_join (os_path_join GIBSON_ROOT "log") name) "mujoco_latents".

(** [load_dataset], lines 20 to 51: list the directory, read every file,
    concatenate, normalise the three camera channels. *)
Definition assemble (d : disk) (perception_name : value) : result assembled :=
  name ← as_str perception_name;
  let data_path := data_path_of name in
  data_files ← os_listdir d data_path;
  cols ← read_files data_files no_columns;
  latents ← np_concatenate2 (col_latents cols);
  camera_distances ← np_concatenate1 (col_camera_distances cols);
  azimuths ← np_concatenate1 (col_azimuths cols);
  elevations ← np_concatenate1 (col_elevations cols);
  target_coords ← np_concatenate2 (col_target_coords cols);
  camera_distances ← normalize camera_distances;
  azimuths ← normalize azimuths;
  elevations ← normalize elevations;
  Ok {| as_latents := latents; as_camera_distances := camera_distances;
        as_azimuths := azimuths; as_elevations := elevations;
        as_target_coords := target_coords |}.

(** [load_dataset], lines 53 to 68: the inputs and targets of the chosen
    camera mode. *)
Definition select_inputs (a : assembled) (fixed_camera : value)
    : result (ndarray2 npfloat * ndarray2 npfloat) :=
  if truthy fixed_camera then
    fixed_indices ← fixed_camera_mask (as_camera_distances a) (as_azimuths a) (as_elevations a);
    inputs ← mask_index (as_latents a) fixed_indices;
    target_coords ← mask_index (as_target_coords a) fixed_indices;
    Ok (inputs, target_coords)
  else
    inputs ← np_concatenate_axis1
               [as_latents a; as_column (as_camera_distances a); as_column (as_azimuths a);
                as_column (as_elevations a)];
    Ok (inputs, as_target_coords a).

(** [load_dataset], lines 71 to 74: the debug subsample. *)
Definition debug_subsample (raw : nat -> Z) (debug : value)
    (inputs target_coords : ndarray2 npfloat)
    : result (ndarray2 npfloat * ndarray2 npfloat) :=
  if truthy debug then
    let indices := random_integers raw 0 (Z.of_nat (nrows inputs)) 10 in
    inputs ← take_rows inputs indices;
    target_coords ← take_rows target_coords indices;
    Ok (inputs, target_coords)
  else Ok (inputs, target_coords).

(** [load_dataset(perception_name, fixed_camera, debug)], reading the
    directories of [d] and drawing the debug indices from [raw]. *)
Definition load_dataset (d : disk) (raw : nat -> Z)
    (perception_name fixed_camera debug : value) : result TensorDataset :=
  a ← assemble d perception_name;
  '(inputs, target_coords) ← select_inputs a fixed_camera;
  '(inputs, target_coords) ← debug_subsample raw debug inputs target_coords;
  (* To tensor *)
  let inputs := torch_Tensor inputs in
  let target_coord := torch_Tensor target_coords in
  new_TensorDataset inputs target_coord.

(** ** scripts/perception_policy_train.py: the 70/30 split *)

(** *** [int(n * 0.7)] in binary64

    A positive double is a pair [(m, e)] standing for [m * 2^e] with
    [m < 2^53].  Only what the product of a dataset length with the
    constant [0.7] needs is modelled: conversion of a non-negative integer,
    multiplication of two such values with rounding to nearest, ties to
    even, and truncation to an integer.  (Subnormal results cannot arise:
    the product is 0 or at least 0.7.) *)

(** The nearest integer to [p / 2^sh], ties to the even one. *)
Definition round_half_even (p sh : Z) : Z :=
  let q := p / 2 ^ sh in
  let r := p mod 2 ^ sh in
  if 2 * r <? 2 ^ sh then q
  else if 2 ^ sh <? 2 * r then q + 1
  else if Z.even q then q else q + 1.

(** Rounding the exact value [p * 2^e] to 53 significant bits. *)
Definition round53 (p e : Z) : Z * Z :=
  let sh := Z.max 0 (Z.log2 p - 52) in
  (round_half_even p sh, e + sh).

(** [float(n)] for [n >= 0]. *)
Definition float_of_int (n : Z) : result (Z * Z) :=
  let '(m, e) := round53 n 0 in
  if 2 ^ 1024 <=? m * 2 ^ e then Err OverflowError else Ok (m, e).

(** The double nearest to 0.7: [3152519739159347 * 2^-52]. *)
Definition double_0_7 : Z * Z := (3152519739159347, -52).

Definition float_mul (x y : Z * Z) : Z * Z :=
  round53 (fst x * fst y) (snd x + snd y).

(** [int(x)] for a non-negative double: truncation. *)
Definition int_of_float (x : Z * Z) : Z :=
  if 0 <=? snd x then fst x * 2 ^ snd x else fst x / 2 ^ (- snd x).

(** [int(n * 0.7)] *)
Definition int_mul_0_7 (n : Z) : result Z :=
  x ← float_of_int n;
  Ok (int_of_float (float_mul x double_0_7)).

(** *** [data.random_split] *)

(** [l[lo:hi]] *)
Definition py_slice {A : Type} (l : list A) (lo hi : Z) : list A :=
  let n := Z.of_nat (length l) in
  let clamp i := if i <? 0 then Z.max (i + n) 0 else Z.min i n in
  let lo := clamp lo in
  let hi := clamp hi in
  take (Z.to_nat (hi - lo)) (drop (Z.to_nat lo) l).

(** [data.Subset(dataset, indices)] *)
Record Subset : Type := mkSubset {
  subset_dataset : TensorDataset;
  subset_indices : list nat
}.

(** [data.random_split(dataset, (a, b))], where [perm] is the outcome of
    [torch.randperm(a + b)]. *)
Definition random_split (dataset : TensorDataset) (lengths : Z * Z)
    (randperm : nat -> list nat) : result (Subset * Subset) :=
  let '(a, b) := lengths in
  if negb (a + b =? Z.of_nat (dataset_len dataset)) then Err ValueError
  else
    let indices := randperm (Z.to_nat (a + b)) in
    Ok ({| subset_dataset := dataset; subset_indices := py_slice indices (a - a) a |},
        {| subset_dataset := dataset; subset_indices := py_slice indices (a + b - b) (a + b) |}).

(** Lines 115 to 118 of [main]. *)
Definition split_dataset (dataset : TensorDataset) (randperm : nat -> list nat)
    : result (Subset * Subset) :=
  train_size ← int_mul_0_7 (Z.of_nat (dataset_len dataset));
  let test_size := Z.of_nat (dataset_len dataset) - train_size in
  random_split dataset (train_size, test_size) randperm.

(** *** [data.DataLoader] *)

Abbreviation tensor := (ndarray2 npfloat).

(** Consecutive groups of [k] elements; the last one may be shorter. *)
Fixpoint chunks_aux {A : Type} (k : nat) (l : list A) (cur : list A) (room : nat)
    : list (list A) :=
  match l with
  | [] => match cur with [] => [] | _ => [rev cur] end
  | x :: l' =>
      match room with
      | O => rev cur :: chunks_aux k l' [x] (k - 1)
      | S room' => chunks_aux k l' (x :: cur) room'
      end
  end.

Definition chunks {A : Type} (k : nat) (l : list A) : list (list A) :=
  chunks_aux k l [] k.

(** [subset[pos]] for every position of a batch, collated into one input
    tensor and one target tensor. *)
Definition collate (s : Subset) (positions : list nat) : result (tensor * tensor) :=
  idx ← mapM (fun pos => py_index (subset_indices s) (Z.of_nat pos)) positions;
  xs ← mapM (fun i => py_index (rows (inputs_of (subset_dataset s))) (Z.of_nat i)) idx;
  ys ← mapM (fun i => py_index (rows (targets_of (subset_dataset s))) (Z.of_nat i)) idx;
  Ok ({| ncols := ncols (inputs_of (subset_dataset s)); rows := xs |},
      {| ncols := ncols (targets_of (subset_dataset s)); rows := ys |}).

(** The [batch_size] argument of a loader must be a positive integer
    (a [bool] is refused). *)
Definition as_batch_size (v : value) : result nat :=
  match v with
  | VInt z => if 0 <? z then Ok (Z.to_nat z) else Err ValueError
  | _ => Err ValueError
  end.

(** [num_workers < 0] is refused. *)
Definition check_num_workers (v : value) : result unit :=
  match v with
  | VInt z => if z <? 0 then Err ValueError else Ok tt
  | VFloat q => if Qltb q 0 then Err ValueError else Ok tt
  | VBool _ => Ok tt
  | VNone | VStr _ => Err TypeError
  end.

(** [data.DataLoader(dataset, batch_size=..., shuffle=..., num_workers=...)]
    and what its constructor checks, in its order: the worker count, then
    (with [shuffle=True]) the random sampler, which refuses an empty
    dataset, then the batch size. *)
Record DataLoader : Type := mkLoader {
  loader_dataset : Subset;
  loader_batch_size : nat;
  loader_shuffle : bool
}.

Definition new_DataLoader (dataset : Subset) (batch_size : value) (shuffle : bool)
    (num_workers : value) : result DataLoader :=
  _ ← check_num_workers num_workers;
  _ ← (if shuffle && Nat.eqb (length (subset_indices dataset)) 0
       then Err ValueError else Ok tt);
  batch_size ← as_batch_size batch_size;
  Ok {| loader_dataset := dataset; loader_batch_size := batch_size;
        loader_shuffle := shuffle |}.

(** One pass over a loader: [order] is the sampler's order of positions
    (a fresh permutation when [shuffle=True], [0..len-1] otherwise). *)
Definition loader_batches (loader : DataLoader) (order : list nat)
    : result (list (tensor * tensor)) :=
  mapM (collate (loader_dataset loader)) (chunks (loader_batch_size loader) order).

(** ** scripts/perception_policy_train.py: [main] *)

(** What [ROSTrajectoryVAE(...)] gives the script: [model.decoder] and
    [model.to_trajectory]; a trajectory batch has shape
    [(batch, joints, time steps)]. *)
Record TrajectoryVAE : Type := mkVAE {
  decoder : tensor -> tensor;
  to_trajectory : tensor -> ndarray3 npfloat
}.

(** The collaborators [main] imports and calls but does not define. *)
Class Collaborators : Type := {
  Policy : Type;                                     (* the predictor and its parameters *)
  Optimizer : Type;                                  (* Adam's state *)
  ROSTrajectoryVAE : value -> value -> value -> value -> value -> string -> TrajectoryVAE;
  Predictor : value -> value -> Policy;
  forward : Policy -> tensor -> tensor;              (* policy(x) *)
  Adam : Policy -> value -> Optimizer;
  (* loss.backward(); optimizer.step(); optimizer.zero_grad() *)
  backward_step : Optimizer -> Policy -> TrajectoryVAE -> tensor -> tensor -> Optimizer * Policy;
  end_effector_pose : tensor -> tensor;
  mse_loss : tensor -> tensor -> npfloat;
  MIN_ANGLE : npfloat;
  MAX_ANGLE : npfloat
}.

(** The random generators the run consults. *)
Record randomness : Type := mkRandomness {
  np_raw : nat -> Z;                      (* numpy's raw stream *)
  split_randperm : nat -> list nat;       (* [torch.randperm] inside [random_split] *)
  shuffle_randperm : nat -> nat -> list nat   (* epoch, size: the training sampler *)
}.

Section Main.
Context `{C : Collaborators}.

(** The effects of [main] on the outside world, in program order.
    (Console output other than the epoch banner is left out.) *)
Inductive event : Type :=
| EvSaveArguments (save_path : string)
| EvLoadVAE (model_index : value)
| EvReadDataset (data_name : value)
| EvPrintEpoch (n : Z)
| EvKinematics (joint_pose : tensor)
| EvOptimizerStep
| EvTorchSave (path : string) (state_dict : Policy)
| EvPlot (path : string).

(** Effectful code: the events performed so far and the outcome. *)
Definition M (A : Type) : Type := list event * result A.

#[global] Instance M_ret : MRet M := fun A a => ([], Ok a).
#[global] Instance M_bind : MBind M := fun A B f m =>
  match m with
  | (log, Ok a) => let '(log', r) := f a in (log ++ log', r)
  | (log, Err e) => (log, Err e)
  end.

Definition emit (ev : event) : M unit := ([ev], Ok tt).
Definition lift {A : Type} (r : result A) : M A := ([], r).

(** [for x in l: s = body(s, x)] *)
Fixpoint for_each {S A : Type} (body : S -> A -> M S) (l : list A) (s : S) : M S :=
  match l with
  | [] => mret s
  | x :: l' =>
      s' ← body s x;
      for_each body l' s'
  end.

(** [t[:, :, -1]]: the last entry along axis 2. *)
Definition slice_last_step (t : ndarray3 npfloat) : result tensor :=
  match ndim t with
  | O => Err IndexError
  | S _ => Ok {| ncols := nsteps t;
                 rows := map (map (fun r => List.last r NaN)) (cells t) |}
  end.

(** [(MAX_ANGLE - MIN_ANGLE) * t + MIN_ANGLE], entry by entry. *)
Definition unnormalize (t : tensor) : tensor :=
  {| ncols := ncols t;
     rows := map (map (fun x => fadd (fmul (fsub MAX_ANGLE MIN_ANGLE) x) MIN_ANGLE)) (rows t) |}.

(** What the loops carry from one batch to the next. *)
Record pass_state : Type := mkPass {
  ps_policy : Policy;
  ps_optimizer : Optimizer;
  ps_losses : list npfloat;
  ps_end_poses : list tensor;
  ps_target_poses : list tensor;
  ps_latents : list tensor
}.

(** The body of [for input, target_pose in train_loader]. *)
Definition train_batch (action_vae : TrajectoryVAE) (st : pass_state)
    (batch : tensor * tensor) : M pass_state :=
  let '(latent_1, target_pose) := batch in
  let latent_2 := forward (ps_policy st) latent_1 in
  let trajectories := decoder action_vae latent_2 in
  let trajectories := to_trajectory action_vae trajectories in
  end_joint_pose ← lift (slice_last_step trajectories);
  let end_joint_pose := unnormalize end_joint_pose in
  _ ← emit (EvKinematics end_joint_pose);
  let end_pose := end_effector_pose end_joint_pose in
  let loss := mse_loss end_pose target_pose in
  _ ← emit EvOptimizerStep;
  let '(optimizer, policy) :=
    backward_step (ps_optimizer st) (ps_policy st) action_vae latent_1 target_pose in
  mret {| ps_policy := policy; ps_optimizer := optimizer;
          ps_losses := ps_losses st ++ [loss];
          ps_end_poses := ps_end_poses st ++ [end_pose];
          ps_target_poses := ps_target_poses st ++ [target_pose];
          ps_latents := ps_latents st ++ [latent_2] |}.

(** The body of [for latent_1, target_pose in test_loader]; the end pose
    is appended twice, as in the script. *)
Definition val_batch (action_vae : TrajectoryVAE) (st : pass_state)
    (batch : tensor * tensor) : M pass_state :=
  let '(latent_1, target_pose) := batch in
  let latent_2 := forward (ps_policy st) latent_1 in
  let trajectories := decoder action_vae latent_2 in
  let trajectories := to_trajectory action_vae trajectories in
  end_joint_pose ← lift (slice_last_step trajectories);
  let end_joint_pose := unnormalize end_joint_pose in
  _ ← emit (EvKinematics end_joint_pose);
  let end_pose := end_effector_pose end_joint_pose in
  let loss := mse_loss end_pose target_pose in
  mret {| ps_policy := ps_policy st; ps_optimizer := ps_optimizer st;
          ps_losses := ps_losses st ++ [loss];
          ps_end_poses := (ps_end_poses st ++ [end_pose]) ++ [end_pose];
          ps_target_poses := ps_target_poses st ++ [target_pose];
          ps_latents := ps_latents st ++ [latent_2] |}.

(** What the loop over the epochs carries. *)
Record loop_state : Type := mkLoop {
  policy : Policy;
  optimizer : Optimizer;
  best_val : npfloat;
  avg_train_losses : list npfloat;
  avg_val_losses : list npfloat
}.

(** The body of [for epoch in range(args.num_epoch)]. *)
Definition run_epoch (action_vae : TrajectoryVAE) (rnd : randomness)
    (train_loader test_loader : DataLoader) (save_path : string)
    (st : loop_state) (epoch : Z) : M loop_state :=
  _ ← emit (EvPrintEpoch (epoch + 1));
  (* Training *)
  train_batches ← lift (loader_batches train_loader
                          (shuffle_randperm rnd (Z.to_nat epoch)
                             (length (subset_indices (loader_dataset train_loader)))));
  tr ← for_each (train_batch action_vae) train_batches
         {| ps_policy := policy st; ps_optimizer := optimizer st; ps_losses := [];
            ps_end_poses := []; ps_target_poses := []; ps_latents := [] |};
  let avg_loss := np_mean (ps_losses tr) in
  let avg_train_losses := avg_train_losses st ++ [avg_loss] in
  train_poses ← lift (np_concatenate2 (ps_end_poses tr));
  train_targets ← lift (np_concatenate2 (ps_target_poses tr));
  (* Validation *)
  test_batches ← lift (loader_batches test_loader
                         (seq 0 (length (subset_indices (loader_dataset test_loader)))));
  va ← for_each (val_batch action_vae) test_batches
         {| ps_policy := ps_policy tr; ps_optimizer := ps_optimizer tr; ps_losses := [];
            ps_end_poses := []; ps_target_poses := []; ps_latents := ps_latents tr |};
  let avg_loss := np_mean (ps_losses va) in
  val_poses ← lift (np_concatenate2 (ps_end_poses va));
  val_targets ← lift (np_concatenate2 (ps_target_poses va));
  latents ← lift (np_concatenate2 (ps_latents va));
  let avg_val_losses := avg_val_losses st ++ [avg_loss] in
  best_val ←
    (if flt avg_loss (best_val st) then
       _ ← emit (EvTorchSave (os_path_join save_path "model.pth.tar") (ps_policy va));
       mret avg_loss
     else mret (best_val st));
  _ ← emit (EvPlot (os_path_join save_path "train_scatter.png"));
  _ ← emit (EvPlot (os_path_join save_path "val_scatter.png"));
  poses ← lift (np_concatenate2 [train_poses; val_poses]);
  targets ← lift (np_concatenate2 [train_targets; val_targets]);
  _ ← emit (EvPlot (os_path_join save_path "full_scatter.png"));
  _ ← emit (EvPlot (os_path_join save_path "latents_distribution.png"));
  _ ← emit (EvPlot (os_path_join save_path "avg_mse.png"));
  _ ← emit (EvPlot (os_path_join save_path "avg_log_mse.png"));
  mret {| policy := ps_policy va; optimizer := ps_optimizer va; best_val := best_val;
          avg_train_losses := avg_train_losses; avg_val_losses := avg_val_losses |}.

(** [v > 0] *)
Definition py_gt_zero (v : value) : result bool :=
  match v with
  | VInt z => Ok (0 <? z)
  | VFloat q => Ok (Qltb 0 q)
  | VBool b => Ok b
  | VNone | VStr _ => Err TypeError
  end.

(** [v + k] for an integer literal [k] *)
Definition py_add_int (v : value) (k : Z) : result value :=
  match v with
  | VInt z => Ok (VInt (z + k))
  | VFloat q => Ok (VFloat (q + inject_Z k))
  | VBool b => Ok (VInt ((if b then 1 else 0) + k))
  | VNone | VStr _ => Err TypeError
  end.

(** [range(v)] *)
Definition py_range (v : value) : result (list Z) :=
  match v with
  | VInt z => Ok (map Z.of_nat (seq 0 (Z.to_nat z)))
  | VBool b => Ok (if b then [0] else [])
  | VNone | VStr _ | VFloat _ => Err TypeError
  end.

Definition initial_loop_state (p : Policy) (o : Optimizer) : loop_state :=
  {| policy := p; optimizer := o; best_val := PInf;
     avg_train_losses := []; avg_val_losses := [] |}.

(** [main(args)] on the disk [d] with the generators [rnd]. *)
Definition main (d : disk) (rnd : randomness) (args : namespace) : M unit :=
  policy_name ← lift (getattr args "policy_name");
  policy_name ← lift (as_str policy_name);
  let save_path := os_path_join "../policy_log" policy_name in
  _ ← emit (EvSaveArguments save_path);
  model_index ← lift (getattr args "model_index");
  positive ← lift (py_gt_zero model_index);
  _ ← lift (py_assert positive);
  vae_name ← lift (getattr args "vae_name");
  latent_dim ← lift (getattr args "latent_dim");
  num_actions ← lift (getattr args "num_actions");
  model_index ← lift (getattr args "model_index");
  num_joints ← lift (getattr args "num_joints");
  _ ← emit (EvLoadVAE model_index);
  let action_vae :=
    ROSTrajectoryVAE vae_name latent_dim num_actions model_index num_joints BEHAVIOUR_ROOT in
  (* Load data *)
  g_name ← lift (getattr args "g_name");
  fixed_camera ← lift (getattr args "fixed_camera");
  debug ← lift (getattr args "debug");
  _ ← emit (EvReadDataset g_name);
  dataset ← lift (load_dataset d (np_raw rnd) g_name fixed_camera debug);
  (* Policy *)
  fixed_camera ← lift (getattr args "fixed_camera");
  policy ←
    (if truthy fixed_camera then
       g_latent ← lift (getattr args "g_latent");
       latent_dim ← lift (getattr args "latent_dim");
       mret (Predictor g_latent latent_dim)
     else
       g_latent ← lift (getattr args "g_latent");
       g_latent ← lift (py_add_int g_latent 3);
       latent_dim ← lift (getattr args "latent_dim");
       mret (Predictor g_latent latent_dim));
  lr ← lift (getattr args "lr");
  let optimizer := Adam policy lr in
  '(trainset, testset) ← lift (split_dataset dataset (split_randperm rnd));
  batch_size ← lift (getattr args "batch_size");
  num_processes ← lift (getattr args "num_processes");
  train_loader ← lift (new_DataLoader trainset batch_size true num_processes);
  test_loader ← lift (new_DataLoader testset (VInt 10000) false (VInt 0));
  num_epoch ← lift (getattr args "num_epoch");
  epochs ← lift (py_range num_epoch);
  _ ← for_each (run_epoch action_vae rnd train_loader test_loader save_path) epochs
        (initial_loop_state policy optimizer);
  mret tt.

End Main.

(** Reading a log: the epochs (as the banner numbers them) in which the
    checkpoint was written. *)
Fixpoint save_epochs_from `{C : Collaborators} (current : Z) (log : list event) : list Z :=
  match log with
  | [] => []
  | EvPrintEpoch n :: log' => save_epochs_from n log'
  | EvTorchSave _ _ :: log' => current :: save_epochs_from current log'
  | _ :: log' => save_epochs_from current log'
  end.

Definition save_epochs `{C : Collaborators} (log : list event) : list Z :=
  save_epochs_from 0 log.

(** Reading a log: the files on disk after the events, given the files
    before.  Only [torch.save] and the plotting helpers write; nothing
    removes a file. *)
Inductive file_content `{C : Collaborators} : Type :=
| Checkpoint (state_dict : Policy)
| Image.

Definition write_of `{C : Collaborators} (fs : gmap string file_content) (ev : event)
    : gmap string file_content :=
  match ev with
  | EvTorchSave path p => <[path := Checkpoint p]> fs
  | EvPlot path => <[path := Image]> fs
  | _ => fs
  end.

Definition files_after `{C : Collaborators} (fs : gmap string file_content)
    (log : list event) : gmap string file_content :=
  fold_left write_of log fs.

End Train.
Import Train.

(** ** A small concrete world

    Three samples in one episode file, and collaborators simple enough to
    run [main] by computation: the predictor is the number of optimiser
    steps taken so far, and its output makes the loss of a pass follow a
    fixed table. *)

Module Toy.

Definition file : episode_file :=
  {| ep_latents := mkArray3 2 1 [ [[Fin 10]; [Fin 11]]; [[Fin 20]; [Fin 21]]; [[Fin 30]; [Fin 31]] ];
     ep_camera_distances := [Fin 0; Fin 0; Fin 1];
     ep_azimuths := [Fin 0; Fin 1; Fin 0];
     ep_elevations := [Fin 1; Fin 0; Fin 0];
     ep_unused := [];
     ep_target_coords := mkArray2 3 [ [Fin 1; Fin 1; Fin 1]; [Fin 2; Fin 2; Fin 2]; [Fin 3; Fin 3; Fin 3] ] |}.

(** The same file with every later time step overwritten. *)
Definition file' : episode_file :=
  {| ep_latents := mkArray3 2 1 [ [[Fin 10]; [Fin 0]]; [[Fin 20]; [Fin 0]]; [[Fin 30]; [Fin 0]] ];
     ep_camera_distances := ep_camera_distances file;
     ep_azimuths := ep_azimuths file;
     ep_elevations := ep_elevations file;
     ep_unused := [Fin 7];
     ep_target_coords := ep_target_coords file |}.

Definition the_disk : disk := {[ data_path_of "rgb_test" := [file] ]}.
Definition the_disk' : disk := {[ data_path_of "rgb_test" := [file'] ]}.

(** Two files whose camera ranges differ, so that normalising file by
    file and normalising the whole set give different values. *)
Definition file_a : episode_file :=
  {| ep_latents := mkArray3 1 1 [ [[Fin 1]]; [[Fin 2]] ];
     ep_camera_distances := [Fin 0; Fin 2];
     ep_azimuths := [Fin 1; Fin 3];
     ep_elevations := [Fin 5; Fin 5];
     ep_unused := [];
     ep_target_coords := mkArray2 3 [ [Fin 1; Fin 1; Fin 1]; [Fin 2; Fin 2; Fin 2] ] |}.

Definition file_b : episode_file :=
  {| ep_latents := mkArray3 1 1 [ [[Fin 3]] ];
     ep_camera_distances := [Fin 4];
     ep_azimuths := [Fin 2];
     ep_elevations := [Fin 9];
     ep_unused := [];
     ep_target_coords := mkArray2 3 [ [Fin 3; Fin 3; Fin 3] ] |}.

Definition two_files : disk := {[ data_path_of "rgb_test" := [file_a; file_b] ]}.

(** An aligned file whose latent array is two wide, where that of
    [file_a] is one wide; and an aligned file without samples. *)
Definition file_e : episode_file :=
  {| ep_latents := mkArray3 1 2 [ [[Fin 3; Fin 4]] ];
     ep_camera_distances := [Fin 4];
     ep_azimuths := [Fin 2];
     ep_elevations := [Fin 9];
     ep_unused := [];
     ep_target_coords := mkArray2 3 [ [Fin 3; Fin 3; Fin 3] ] |}.

Definition file_empty : episode_file :=
  {| ep_latents := mkArray3 1 1 [];
     ep_camera_distances := [];
     ep_azimuths := [];
     ep_elevations := [];
     ep_unused := [];
     ep_target_coords := mkArray2 3 [] |}.





(** A file whose camera distances are as far apart as binary64 allows. *)
Definition file_wide : episode_file :=
  {| ep_latents := mkArray3 1 1 [ [[Fin 1]]; [[Fin 2]] ];
     ep_camera_distances := [Fin (- inject_Z (2 ^ 1023)); Fin (inject_Z (2 ^ 1023))];
     ep_azimuths := [Fin 0; Fin 1];
     ep_elevations := [Fin 0; Fin 1];
     ep_unused := [];
     ep_target_coords := mkArray2 3 [ [Fin 1; Fin 1; Fin 1]; [Fin 2; Fin 2; Fin 2] ] |}.

Definition wide : disk := {[ data_path_of "rgb_test" := [file_wide] ]}.

Definition loss_table : list Q := [9%Q; 5%Q; 3%Q; 4%Q; 2%Q].

Definition vae : TrajectoryVAE :=
  {| decoder := fun t => t;
     to_trajectory := fun t =>
       {| nsteps := ncols t; ndim := 2;
          cells := map (map (fun x => [Fin 0; x])) (rows t) |} |}.

Definition collaborators_with (min_angle max_angle : npfloat) : Collaborators :=
  {| Policy := nat;
     Optimizer := unit;
     ROSTrajectoryVAE := fun _ _ _ _ _ _ => vae;
     Predictor := fun _ _ => O;
     forward := fun p t =>
       {| ncols := 1; rows := map (fun _ => [Fin (nth p loss_table 0%Q)]) (rows t) |};
     Adam := fun _ _ => tt;
     backward_step := fun o p _ _ _ => (o, S p);
     end_effector_pose := fun t => t;
     mse_loss := fun pose _ => hd NaN (hd [] (rows pose));
     MIN_ANGLE := min_angle;
     MAX_ANGLE := max_angle |}.

Definition collaborators : Collaborators := collaborators_with (Fin 0) (Fin 1).

(** Joints that turn between -3 and 3; a pass about to start with the
    predictor that has taken one optimiser step; a batch of two samples. *)
Definition arm : Collaborators := collaborators_with (Fin (-3)) (Fin 3).

Definition arm_state : @pass_state arm := @mkPass arm 1%nat tt [] [] [] [].

Definition batch : tensor * tensor :=
  ({| ncols := 1; rows := [[Fin 7]; [Fin 8]] |},
   {| ncols := 3; rows := [[Fin 1; Fin 1; Fin 1]; [Fin 2; Fin 2; Fin 2]] |}).

Definition rnd : randomness :=
  {| np_raw := fun _ => 0;
     split_randperm := fun n => seq 0 n;
     shuffle_randperm := fun _ n => seq 0 n |}.

Definition args (model_index : Z) : namespace :=
  list_to_map
    [ ("policy_name", VStr "example"); ("model_index", VInt model_index);
      ("vae_name", VStr "mse_fc_v1"); ("latent_dim", VInt 5); ("num_actions", VInt 24);
      ("num_joints", VInt 7); ("g_name", VStr "rgb_test"); ("g_latent", VInt 10);
      ("fixed_camera", VBool false); ("debug", VBool false); ("lr", VFloat (1 # 1000));
      ("batch_size", VInt 5); ("num_processes", VInt 1); ("num_epoch", VInt 4) ].

End Toy.

(** * Vocabulary of the properties *)

(** [args.model_index > 0] evaluates to [True]. *)
Definition positive_model_index (args : namespace) : Prop :=
  exists v, args !! "model_index" = Some v /\ py_gt_zero v = Ok true.

(** The log holds nothing but the call of [save_arguments]: no model was
    loaded, no data read, no batch run, no checkpoint or plot written. *)
Definition only_arguments_saved `{C : Collaborators} (log : list event) : Prop :=
  forall ev, In ev log -> exists save_path, ev = EvSaveArguments save_path.

(** The number of samples of an episode file, and of a list of files. *)
Definition sample_count (f : episode_file) : nat := length (cells (ep_latents f)).

Definition total_samples (files : list episode_file) : nat :=
  list_sum (map sample_count files).

(** The arrays of a file are aligned: the latent array has a first time
    step, and the three camera channels and the targets have one entry
    per sample. *)
Definition aligned (f : episode_file) : Prop :=
  nsteps (ep_latents f) <> O /\
  length (ep_camera_distances f) = sample_count f /\
  length (ep_azimuths f) = sample_count f /\
  length (ep_elevations f) = sample_count f /\
  nrows (ep_target_coords f) = sample_count f.

(** All files have the same latent width and the same target width. *)
Definition same_widths (files : list episode_file) : Prop :=
  forall f g, In f files -> In g files ->
    ndim (ep_latents f) = ndim (ep_latents g) /\
    ncols (ep_target_coords f) = ncols (ep_target_coords g).

(** The latent rows of a file at time step 0. *)
Definition first_step_rows (f : episode_file) : list (list npfloat) :=
  map (fun sample => hd [] sample) (cells (ep_latents f)).

(** Two episode files differ at most in the later time steps of their
    latent arrays (and in the array that is never read). *)
Definition same_first_step (f f' : episode_file) : Prop :=
  (nsteps (ep_latents f) = O <-> nsteps (ep_latents f') = O) /\
  ndim (ep_latents f) = ndim (ep_latents f') /\
  first_step_rows f = first_step_rows f' /\
  ep_camera_distances f = ep_camera_distances f' /\
  ep_azimuths f = ep_azimuths f' /\
  ep_elevations f = ep_elevations f' /\
  ep_target_coords f = ep_target_coords f'.







(** A channel over the whole set of files, in file order. *)
Definition whole (channel : episode_file -> list npfloat) (files : list episode_file)
    : list npfloat :=
  concat (map channel files).

(** The camera triplet (distance, azimuth, elevation) of every sample, and
    the three channels of a list of triplets. *)
Definition triplet : Type := npfloat * npfloat * npfloat.

Definition distances_of (samples : list triplet) : list npfloat :=
  map (fun s => fst (fst s)) samples.
Definition azimuths_of (samples : list triplet) : list npfloat :=
  map (fun s => snd (fst s)) samples.
Definition elevations_of (samples : list triplet) : list npfloat :=
  map (fun s => snd s) samples.

(** [loss] is a new minimum after the losses [previous]: it is strictly
    below +infinity (the initial best value) and strictly below every
    earlier loss.  (An earlier loss that is NaN never became the best
    value and does not count.) *)
Definition new_minimum (loss : npfloat) (previous : list npfloat) : Prop :=
  flt loss PInf = true /\
  forall x, In x previous -> is_nan x = false -> flt loss x = true.

(** Lines 224 to 226 applied to a sequence of mean validation losses: for
    each epoch, whether the checkpoint is written. *)
Fixpoint checkpoint_flags (best_val : npfloat) (losses : list npfloat) : list bool :=
  match losses with
  | [] => []
  | avg_loss :: rest =>
      if flt avg_loss best_val then true :: checkpoint_flags avg_loss rest
      else false :: checkpoint_flags best_val rest
  end.

(** The banner numbers of the flagged epochs. *)
Fixpoint flagged (epochs : list Z) (flags : list bool) : list Z :=
  match epochs, flags with
  | epoch :: epochs', b :: flags' =>
      if b then (epoch + 1) :: flagged epochs' flags' else flagged epochs' flags'
  | _, _ => []
  end.

(** The events of a batch: the kinematics call and the optimiser step. *)
Definition batch_event `{C : Collaborators} (ev : event) : Prop :=
  match ev with
  | EvKinematics _ | EvOptimizerStep => True
  | _ => False
  end.

(** The six plots at the end of an epoch. *)
Definition plots `{C : Collaborators} (save_path : string) : list event :=
  map (fun name => EvPlot (os_path_join save_path name))
    ["train_scatter.png"; "val_scatter.png"; "full_scatter.png";
     "latents_distribution.png"; "avg_mse.png"; "avg_log_mse.png"].

(** The one file the checkpoint goes to. *)
Definition model_path (save_path : string) : string :=
  os_path_join save_path "model.pth.tar".

(** The joint pose at the last time step of every sample of a trajectory
    batch of shape [(batch, joints, time steps)]: of the angles of each
    joint, the one at index [time steps - 1]. *)
Definition last_time_step (t : ndarray3 npfloat) : list (list npfloat) :=
  map (map (fun angles => nth (Nat.pred (ndim t)) angles NaN)) (cells t).

(** The fixed affine map [(MAX_ANGLE - MIN_ANGLE) * x + MIN_ANGLE]. *)
Definition affine `{C : Collaborators} (x : npfloat) : npfloat :=
  fadd (fmul (fsub MAX_ANGLE MIN_ANGLE) x) MIN_ANGLE.

(** The joint pose the kinematics function is to receive for a trajectory
    batch: one row per sample, one entry per joint. *)
Definition expected_joint_pose `{C : Collaborators} (t : ndarray3 npfloat) : tensor :=
  {| ncols := nsteps t; rows := map (map affine) (last_time_step t) |}.

(** The trajectory batch decoded from the predictor's output on a batch
    of inputs. *)
Definition decoded_trajectory `{C : Collaborators} (action_vae : TrajectoryVAE)
    (p : Policy) (latent_1 : tensor) : ndarray3 npfloat :=
  to_trajectory action_vae (decoder action_vae (forward p latent_1)).

(** The pose handed to the kinematics function is the unnormalised last
    time step of the trajectory decoded from some predictor output. *)
Definition kinematics_input_ok `{C : Collaborators} (action_vae : TrajectoryVAE)
    (ev : event) : Prop :=
  match ev with
  | EvKinematics joint_pose =>
      exists (p : Policy) (latent_1 : tensor),
        ndim (decoded_trajectory action_vae p latent_1) <> O /\
        (wf_array3 (decoded_trajectory action_vae p latent_1) ->
         joint_pose = expected_joint_pose (decoded_trajectory action_vae p latent_1))
  | _ => True
  end.

(** The attribute [k] of a parse that returned. *)
Definition lookup_parsed (r : result namespace) (k : string) : option value :=
  match r with
  | Ok ns => ns !! k
  | Err _ => None
  end.

(** * Properties *)

(** ** Tactics for the two monads *)

Ltac unfold_bind :=
  unfold mbind, mret, result_bind, result_ret, M_bind, M_ret, lift, emit in *.

(** Case analysis on the outcome of the first fallible step of a goal or
    hypothesis. *)
Ltac case_result H :=
  match type of H with
  | context [match ?r with Ok _ => _ | Err _ => _ end] =>
      let E := fresh "E" in destruct r eqn:E; try discriminate H
  end.

Lemma bind_Ok {A B : Type} (r : result A) (f : A -> result B) (b : B) :
  r ≫= f = Ok b -> exists a, r = Ok a /\ f a = Ok b.
Proof. destruct r; unfold_bind; [eauto | discriminate]. Qed.

(** ** The argument parser *)

Section ParserFacts.
Variable p : ArgumentParser.
Variable k : string.
Hypothesis no_dest : forall a, In a (actions p) -> dest a <> k.

Lemma find_action_dest opt a : find_action p opt = Some a -> dest a <> k.
Proof.
  unfold find_action. intros H. apply find_some in H. apply no_dest, H.
Qed.

Lemma consume_absent argv :
  forall ns extras ns' extras',
    ns !! k = None ->
    consume p argv ns extras = Ok (ns', extras') ->
    ns' !! k = None.
Proof.
  induction argv as [|arg rest IH]; intros ns extras ns' extras' Hk H; simpl in H.
  - congruence.
  - destruct arg as [opt|opt v];
      destruct (find_action p opt) as [a|] eqn:Hf; eauto;
      pose proof (find_action_dest _ _ Hf) as Hd;
      destruct (kind a); try discriminate;
      try (destruct (value_has_type ty v); try discriminate);
      (eapply IH; [|exact H]); rewrite lookup_insert_ne; auto.
Qed.

Lemma initial_namespace_absent :
  defaults p !! k = None -> initial_namespace p !! k = None.
Proof.
  intros Hd. unfold initial_namespace.
  apply lookup_union_None. split; [|exact Hd].
  revert no_dest. generalize (actions p) as l.
  assert (forall l (ns : namespace),
    ns !! k = None -> (forall a, In a l -> dest a <> k) ->
    fold_left (fun (ns : namespace) a =>
       match ns !! dest a, default a with
       | None, Some v => <[dest a := v]> ns
       | _, _ => ns
       end) l ns !! k = None) as Hfold.
  { induction l as [|a l IH]; intros ns Hns Hl; simpl; [exact Hns|].
    apply IH; [|intros; apply Hl; now right].
    destruct (ns !! dest a), (default a); auto.
    rewrite lookup_insert_ne; auto. apply Hl. now left. }
  intros l Hl. apply Hfold; [apply lookup_empty | exact Hl].
Qed.

Lemma parse_args_absent argv ns :
  defaults p !! k = None -> parse_args p argv = Ok ns -> ns !! k = None.
Proof.
  intros Hd H. unfold parse_args in H.
  apply bind_Ok in H as [[ns' extras] [Hc H]].
  destruct extras; [discriminate|]. injection H as <-.
  eapply consume_absent; [|exact Hc]. now apply initial_namespace_absent.
Qed.

End ParserFacts.

(** The parser of the training script's entry point registers neither
    [--model-index] nor [--policy-name]. *)
Lemma entry_parser_dests p k :
  build_parser true true true false false = Ok p ->
  k = "model_index" \/ k = "policy_name" ->
  (forall a, In a (actions p) -> dest a <> k) /\ defaults p !! k = None.
Proof.
  intros Hp Hk.
  assert (forallb (fun a => negb (String.eqb (dest a) k)) (actions p) = true
          /\ defaults p !! k = None) as [Ha Hd].
  { vm_compute in Hp. injection Hp as <-.
    destruct Hk as [-> | ->]; split; vm_compute; reflexivity. }
  split; [|exact Hd].
  intros a Hin. rewrite forallb_forall in Ha. specialize (Ha a Hin).
  apply negb_true_iff, String.eqb_neq in Ha. exact Ha.
Qed.

(** C4.  Called as the training script calls it
    ([behavioural_vae=True, policy=True, gibson=True], the other two flags
    left at [False]), [parse_arguments] returns, for every command line it
    accepts, a namespace with no [model_index] and no [policy_name]
    attribute; [main] on that namespace raises [AttributeError] on its
    first statement, before any effect and before the [model_index]
    assertion. *)
Theorem entry_point_namespace_lacks_model_index `{C : Collaborators}
    (argv : list cli_arg) (args : namespace) (d : disk) (rnd : randomness) :
  parse_arguments true true true false false argv = Ok args ->
  args !! "model_index" = None /\
  args !! "policy_name" = None /\
  main d rnd args = ([], Err (AttributeError "policy_name")).
Proof.
  intros H. unfold parse_arguments in H.
  apply bind_Ok in H as [p [Hp H]].
  destruct (entry_parser_dests p "model_index" Hp) as [Hm1 Hm2]; [now left|].
  destruct (entry_parser_dests p "policy_name" Hp) as [Hn1 Hn2]; [now right|].
  pose proof (parse_args_absent p _ Hm1 argv args Hm2 H) as Hm.
  pose proof (parse_args_absent p _ Hn1 argv args Hn2 H) as Hn.
  repeat split; auto.
  unfold main, getattr. rewrite Hn. reflexivity.
Qed.

(** The entry point's parser accepts the empty command line and a command
    line that sets the learning rate and the debug flag. *)
Lemma entry_point_namespace_lacks_model_index_witness :
  exists args,
    parse_arguments true true true false false
      [Opt "--lr" (VFloat (1 # 100)); Flag "--debug"] = Ok args /\
    args !! "debug" = Some (VBool true) /\
    args !! "model_index" = None /\
    args !! "policy_name" = None /\
    main (C := Toy.collaborators) Toy.the_disk Toy.rnd args
      = ([], Err (AttributeError "policy_name")).
Proof.
  assert (lookup_parsed
            (parse_arguments true true true false false
               [Opt "--lr" (VFloat (1 # 100)); Flag "--debug"]) "debug"
          = Some (VBool true)) as Hdebug by (vm_compute; reflexivity).
  destruct (parse_arguments true true true false false
              [Opt "--lr" (VFloat (1 # 100)); Flag "--debug"]) as [args|e] eqn:E;
    [|discriminate Hdebug].
  exists args. split; [reflexivity|]. split; [exact Hdebug|].
  exact (entry_point_namespace_lacks_model_index (C := Toy.collaborators)
           _ args Toy.the_disk Toy.rnd E).
Defined.

(** ** The assertion on [model_index] *)

(** C5.  Unless [args.model_index > 0] holds, [main] ends with an
    exception, and all it has done by then is the call of [save_arguments]:
    no model is loaded, no data read, no batch trained or validated and no
    checkpoint written.  With an integer [model_index <= 0] and a string
    [policy_name] the exception is the assertion's. *)
Theorem main_fails_fast_unless_model_index_positive `{C : Collaborators}
    (d : disk) (rnd : randomness) (args : namespace) :
  ~ positive_model_index args ->
  (exists e, snd (main d rnd args) = Err e) /\
  only_arguments_saved (fst (main d rnd args)) /\
  (forall name z,
     args !! "policy_name" = Some (VStr name) ->
     args !! "model_index" = Some (VInt z) ->
     main d rnd args
       = ([EvSaveArguments (os_path_join "../policy_log" name)], Err AssertionError)).
Proof.
  intros Hneg.
  assert (forall v, args !! "model_index" = Some v -> py_gt_zero v <> Ok true) as Hv.
  { intros v Hm Hp. apply Hneg. exists v. auto. }
  unfold only_arguments_saved, main, getattr.
  destruct (args !! "policy_name") as [pn|]; cbn;
    [|split; [eauto|split; [intros ev []|intros; discriminate]]].
  destruct (as_str pn) as [name|e] eqn:Hname; cbn;
    [|split; [eauto|split; [intros ev []|]]].
  2:{ intros name z Hpn. injection Hpn as ->. discriminate Hname. }
  destruct (args !! "model_index") as [mi|] eqn:Hmi; cbn;
    [|split; [eauto|split; [intros ev [<-|[]]; eauto|intros; discriminate]]].
  specialize (Hv mi eq_refl).
  destruct (py_gt_zero mi) as [[|]|e] eqn:Hpos; cbn; [congruence| |].
  - split; [eauto|]. split; [intros ev [<-|[]]; eauto|].
    intros name' z Hpn _. injection Hpn as ->.
    cbn in Hname. injection Hname as ->. reflexivity.
  - split; [eauto|]. split; [intros ev [<-|[]]; eauto|].
    intros name' z _ Hz. injection Hz as ->. discriminate Hpos.
Qed.

(** With [model_index = 0] the toy run stops at the assertion. *)
Lemma main_fails_fast_unless_model_index_positive_witness :
  ~ positive_model_index (Toy.args 0) /\
  main (C := Toy.collaborators) Toy.the_disk Toy.rnd (Toy.args 0)
    = ([EvSaveArguments "../policy_log/example"], Err AssertionError).
Proof.
  assert (~ positive_model_index (Toy.args 0)) as Hneg.
  { intros [v [Hv Hp]]. vm_compute in Hv. injection Hv as <-. discriminate Hp. }
  split; [exact Hneg|].
  destruct (main_fails_fast_unless_model_index_positive (C := Toy.collaborators)
              Toy.the_disk Toy.rnd (Toy.args 0) Hneg) as [_ [_ H]].
  exact (H "example" 0 eq_refl eq_refl).
Defined.

(** ** The 70/30 split *)








(** ** The dataset assembler *)

Lemma length_zip_rows {A : Type} (a b : list (list A)) :
  length (zip_rows a b) = Nat.min (length a) (length b).
Proof.
  revert b. induction a as [|r a IH]; intros [|s b]; simpl; auto.
Qed.

Lemma np_concatenate2_Ok {A : Type} (arrays : list (ndarray2 A)) (a : ndarray2 A) :
  np_concatenate2 arrays = Ok a ->
  arrays <> [] /\ rows a = concat (map rows arrays)
  /\ forall b, In b arrays -> ncols b = ncols a.
Proof.
  destruct arrays as [|x rest]; simpl; [discriminate|].
  destruct (forallb _ rest) eqn:E; [|discriminate].
  intros H. injection H as <-. split; [discriminate|]. split; [reflexivity|].
  intros b [<-|Hb]; [reflexivity|].
  rewrite forallb_forall in E. apply Nat.eqb_eq. apply E, Hb.
Qed.

Lemma np_concatenate1_Ok {A : Type} (arrays : list (list A)) (a : list A) :
  np_concatenate1 arrays = Ok a -> arrays <> [] /\ a = concat arrays.
Proof.
  destruct arrays; simpl; [discriminate|].
  intros H. injection H as <-. split; [discriminate|reflexivity].
Qed.

(** Reading the files appends, file by file, the first-time-step slice of
    the latents and the four other arrays. *)
Definition columns_after (acc : columns) (files : list episode_file) : columns :=
  {| col_latents := col_latents acc ++
       map (fun f => {| ncols := ndim (ep_latents f); rows := first_step_rows f |}) files;
     col_camera_distances := col_camera_distances acc ++
       map ep_camera_distances files;
     col_azimuths := col_azimuths acc ++ map ep_azimuths files;
     col_elevations := col_elevations acc ++ map ep_elevations files;
     col_target_coords := col_target_coords acc ++ map ep_target_coords files |}.

Lemma read_files_Ok files : forall acc cols,
  read_files files acc = Ok cols ->
  Forall (fun f => nsteps (ep_latents f) <> O) files /\ cols = columns_after acc files.
Proof.
  induction files as [|f files IH]; intros acc cols H; simpl in H.
  - injection H as <-. split; [constructor|].
    destruct acc; unfold columns_after; simpl. now rewrite !app_nil_r.
  - apply bind_Ok in H as [acc' [Hf H]].
    unfold read_file, slice_first_step in Hf.
    destruct (nsteps (ep_latents f)) eqn:Hs; [discriminate|].
    unfold_bind. injection Hf as <-.
    apply IH in H as [Hall ->]. split; [constructor; [congruence|exact Hall]|].
    unfold columns_after, first_step_rows; simpl. now rewrite <- !app_assoc.
Qed.

Lemma read_files_total files : forall acc,
  Forall (fun f => nsteps (ep_latents f) <> O) files ->
  read_files files acc = Ok (columns_after acc files).
Proof.
  induction files as [|f files IH]; intros acc Hall; simpl.
  - destruct acc; unfold columns_after; simpl. now rewrite !app_nil_r.
  - inversion Hall as [|? ? Hf Hall']; subst.
    unfold read_file, slice_first_step.
    destruct (nsteps (ep_latents f)) eqn:Hs; [congruence|].
    unfold_bind. rewrite IH by assumption. f_equal.
    unfold columns_after, first_step_rows; simpl. now rewrite <- !app_assoc.
Qed.

(** What [assemble] returned, in terms of the files it read. *)
Lemma assemble_Ok d name files a :
  d !! data_path_of name = Some files ->
  assemble d (VStr name) = Ok a ->
  files <> [] /\
  Forall (fun f => nsteps (ep_latents f) <> O) files /\
  rows (as_latents a) = concat (map first_step_rows files) /\
  (forall f, In f files -> ndim (ep_latents f) = ncols (as_latents a)) /\
  normalize (whole ep_camera_distances files) = Ok (as_camera_distances a) /\
  normalize (whole ep_azimuths files) = Ok (as_azimuths a) /\
  normalize (whole ep_elevations files) = Ok (as_elevations a) /\
  rows (as_target_coords a) = concat (map (fun f => rows (ep_target_coords f)) files).
Proof.
  intros Hd H. unfold assemble in H. cbn [as_str] in H. unfold_bind.
  unfold os_listdir in H. rewrite Hd in H.
  destruct (read_files files no_columns) as [cols|] eqn:Hr; [|discriminate].
  apply read_files_Ok in Hr as [Hsteps ->]. cbn in H.
  destruct (np_concatenate2 _) as [lat|] eqn:Hlat in H; [|discriminate].
  destruct (np_concatenate1 _) as [cd|] eqn:Hcd in H; [|discriminate].
  destruct (np_concatenate1 _) as [az|] eqn:Haz in H; [|discriminate].
  destruct (np_concatenate1 _) as [el|] eqn:Hel in H; [|discriminate].
  destruct (np_concatenate2 _) as [tc|] eqn:Htc in H; [|discriminate].
  destruct (normalize cd) as [cd'|] eqn:Hncd; [|discriminate].
  destruct (normalize az) as [az'|] eqn:Hnaz; [|discriminate].
  destruct (normalize el) as [el'|] eqn:Hnel; [|discriminate].
  injection H as <-. cbn.
  apply np_concatenate2_Ok in Hlat as (Hne & Hrows & Hcols).
  apply np_concatenate1_Ok in Hcd as [_ ->].
  apply np_concatenate1_Ok in Haz as [_ ->].
  apply np_concatenate1_Ok in Hel as [_ ->].
  apply np_concatenate2_Ok in Htc as (_ & Htrows & _).
  split; [intros ->; now apply Hne|]. split; [exact Hsteps|].
  split; [rewrite Hrows, map_map; reflexivity|].
  split; [intros f Hf; apply (Hcols {| ncols := ndim (ep_latents f); rows := first_step_rows f |});
          apply in_map_iff; eauto|].
  repeat split; try assumption.
  rewrite Htrows, map_map. reflexivity.
Qed.

Lemma length_concat_map {A : Type} (g : episode_file -> list A) files :
  (forall f, In f files -> length (g f) = sample_count f) ->
  length (concat (map g files)) = total_samples files.
Proof.
  intros Hg. unfold total_samples. rewrite List.length_concat, map_map.
  f_equal. apply map_ext_in. exact Hg.
Qed.

Lemma normalize_length a b : normalize a = Ok b -> length b = length a.
Proof.
  unfold normalize. intros H.
  apply bind_Ok in H as [lo [_ H]]. apply bind_Ok in H as [hi [_ H]].
  injection H as <-. apply length_map.
Qed.

Lemma normalize_total a : a <> [] -> exists b, normalize a = Ok b.
Proof.
  destruct a as [|x a]; [congruence|]. intros _. unfold normalize. cbn. eauto.
Qed.




Lemma np_concatenate2_total {A : Type} (arrays : list (ndarray2 A)) :
  arrays <> [] ->
  (forall a b, In a arrays -> In b arrays -> ncols a = ncols b) ->
  exists x, np_concatenate2 arrays = Ok x.
Proof.
  destruct arrays as [|a rest]; [congruence|]. intros _ Hc. simpl.
  assert (forallb (fun b => Nat.eqb (ncols b) (ncols a)) rest = true) as ->; [|eauto].
  apply forallb_forall. intros b Hb. apply Nat.eqb_eq. apply Hc; [now right|now left].
Qed.

Lemma np_concatenate1_total {A : Type} (arrays : list (list A)) :
  arrays <> [] -> np_concatenate1 arrays = Ok (concat arrays).
Proof. destruct arrays; [congruence|reflexivity]. Qed.




(** What the claim as worded misses: aligned arrays and consistent sample
    counts do not make the files fit together.  Two aligned files whose
    latent arrays have different widths (three samples in all) cannot be
    concatenated; a directory without files holds nothing to concatenate;
    and files without any sample have no least camera distance.  In each
    case [load_dataset] raises [ValueError] and no dataset is assembled. *)
Lemma aligned_files_need_not_assemble :
  (Forall aligned [Toy.file_a; Toy.file_e] /\
   total_samples [Toy.file_a; Toy.file_e] = 3%nat /\
   load_dataset {[ data_path_of "rgb_test" := [Toy.file_a; Toy.file_e] ]} (fun _ => 0)
     (VStr "rgb_test") (VBool false) (VBool false) = Err ValueError) /\
  (Forall aligned [] /\
   load_dataset {[ data_path_of "rgb_test" := [] ]} (fun _ => 0)
     (VStr "rgb_test") (VBool false) (VBool false) = Err ValueError) /\
  (Forall aligned [Toy.file_empty] /\
   total_samples [Toy.file_empty] = 0%nat /\
   load_dataset {[ data_path_of "rgb_test" := [Toy.file_empty] ]} (fun _ => 0)
     (VStr "rgb_test") (VBool false) (VBool false) = Err ValueError).
Proof.
  repeat split; try (vm_compute; reflexivity);
    repeat constructor; cbn; discriminate.
Qed.

(** *** Only the first time step of the latents is read *)

Lemma read_file_same_first_step acc f f' :
  same_first_step f f' -> read_file acc f = read_file acc f'.
Proof.
  intros (Hz & Hd & Hr & Hc & Ha & He & Ht). unfold read_file, slice_first_step.
  fold (first_step_rows f). fold (first_step_rows f').
  rewrite Hd, Hr, Hc, Ha, He, Ht.
  destruct (nsteps (ep_latents f)) eqn:E, (nsteps (ep_latents f')) eqn:E'; try reflexivity.
  - destruct Hz as [Hz _]. specialize (Hz eq_refl). discriminate.
  - destruct Hz as [_ Hz]. specialize (Hz eq_refl). discriminate.
Qed.

Lemma read_files_same_first_step files files' :
  Forall2 same_first_step files files' ->
  forall acc, read_files files acc = read_files files' acc.
Proof.
  induction 1 as [|f f' files files' Hf _ IH]; intros acc; simpl; [reflexivity|].
  rewrite (read_file_same_first_step acc f f' Hf).
  destruct (read_file acc f'); unfold_bind; [apply IH|reflexivity].
Qed.

(** C9.  Of the latent array of a file, [load_dataset] reads the slice at
    index 0 of the second axis and nothing else: the latents it collects
    are the first-time-step rows of each file, and two disks whose files
    agree on that slice (and on the camera and target arrays) give the same
    outcome whatever the later time steps hold. *)
Theorem only_first_time_step_is_read (d d' : disk) (raw : nat -> Z) (name : string)
    (fixed_camera debug : value) (files files' : list episode_file) :
  d !! data_path_of name = Some files ->
  d' !! data_path_of name = Some files' ->
  Forall2 same_first_step files files' ->
  (forall cols, read_files files no_columns = Ok cols ->
     map rows (col_latents cols) = map first_step_rows files) /\
  load_dataset d raw (VStr name) fixed_camera debug
    = load_dataset d' raw (VStr name) fixed_camera debug.
Proof.
  intros Hd Hd' Hsame. split.
  - intros cols H. apply read_files_Ok in H as [_ ->]. cbn.
    rewrite map_map. reflexivity.
  - unfold load_dataset, assemble. cbn [as_str]. unfold_bind. unfold os_listdir.
    rewrite Hd, Hd'. rewrite (read_files_same_first_step files files' Hsame).
    reflexivity.
Qed.

(** Overwriting every later time step of the toy file changes nothing. *)
Lemma only_first_time_step_is_read_witness :
  load_dataset Toy.the_disk (fun _ => 0) (VStr "rgb_test") (VBool false) (VBool false)
    = load_dataset Toy.the_disk' (fun _ => 0) (VStr "rgb_test") (VBool false) (VBool false).
Proof.
  apply (only_first_time_step_is_read Toy.the_disk Toy.the_disk' (fun _ => 0) "rgb_test"
           (VBool false) (VBool false) [Toy.file] [Toy.file']).
  - vm_compute. reflexivity.
  - vm_compute. reflexivity.
  - constructor; [|constructor]. repeat split; try reflexivity; discriminate.
Defined.

(** *** Rounding to a binary format *)


















Definition wf_format (fmt : format) : Prop := 1 <= prec fmt /\ emin fmt <= emax fmt.

Section RoundPos.
Variable fmt : format.
Hypothesis Hfmt : wf_format fmt.





End RoundPos.

(** Rounding of rationals *)

Section RoundQ.
Local Open Scope Q_scope.








Lemma round_to_Qeq fmt q q' : q == q' -> round_to fmt q = round_to fmt q'.
Proof. intros H. unfold round_to. rewrite (Qred_complete q q' H). reflexivity. Qed.








Lemma wf_binary32 : wf_format binary32.
Proof. split; cbn; lia. Qed.

End RoundQ.

(** *** Normalisation of the camera channels *)

Lemma Qltb_true a b : Qltb a b = true <-> (a < b)%Q.
Proof.
  unfold Qltb. rewrite negb_true_iff. split.
  - intros H. apply Qnot_le_lt. intros Hle. apply Qle_bool_iff in Hle. congruence.
  - intros H. destruct (Qle_bool b a) eqn:E; [|reflexivity].
    apply Qle_bool_iff in E. exfalso. exact (Qlt_not_le _ _ H E).
Qed.

Lemma Qltb_false a b : Qltb a b = false <-> (b <= a)%Q.
Proof.
  unfold Qltb. rewrite negb_false_iff. apply Qle_bool_iff.
Qed.

Lemma fold_fmin_Fin xs : forall x,
  exists m, fold_left fmin (map Fin xs) (Fin x) = Fin m /\
    (m = x \/ In m xs) /\ (m <= x)%Q /\ forall y, In y xs -> (m <= y)%Q.
Proof.
  induction xs as [|y xs IH]; intros x; simpl.
  - exists x. repeat split; auto using Qle_refl. intros y [].
  - unfold fmin at 2. cbn [is_nan flt].
    destruct (Qltb y x) eqn:E.
    + apply Qltb_true in E. destruct (IH y) as (m & Hm & Hin & Hle & Hall).
      exists m. split; [exact Hm|]. split; [right; destruct Hin; auto|].
      split; [apply Qle_trans with y; auto using Qlt_le_weak|].
      intros z [<-|Hz]; auto.
    + apply Qltb_false in E. destruct (IH x) as (m & Hm & Hin & Hle & Hall).
      exists m. split; [exact Hm|]. split; [destruct Hin; auto|].
      split; [exact Hle|].
      intros z [<-|Hz]; [apply Qle_trans with x; auto|auto].
Qed.

Lemma fold_fmax_Fin xs : forall x,
  exists m, fold_left fmax (map Fin xs) (Fin x) = Fin m /\
    (m = x \/ In m xs) /\ (x <= m)%Q /\ forall y, In y xs -> (y <= m)%Q.
Proof.
  induction xs as [|y xs IH]; intros x; simpl.
  - exists x. repeat split; auto using Qle_refl. intros y [].
  - unfold fmax at 2. cbn [is_nan flt].
    destruct (Qltb x y) eqn:E.
    + apply Qltb_true in E. destruct (IH y) as (m & Hm & Hin & Hle & Hall).
      exists m. split; [exact Hm|]. split; [right; destruct Hin; auto|].
      split; [apply Qle_trans with y; auto using Qlt_le_weak|].
      intros z [<-|Hz]; auto.
    + apply Qltb_false in E. destruct (IH x) as (m & Hm & Hin & Hle & Hall).
      exists m. split; [exact Hm|]. split; [destruct Hin; auto|].
      split; [exact Hle|].
      intros z [<-|Hz]; [apply Qle_trans with x; auto|auto].
Qed.

(** [np.min] and [np.max] of a non-empty array of finite values are its
    least and greatest element. *)
Lemma np_min_Fin xs :
  xs <> [] ->
  exists m, np_min (map Fin xs) = Ok (Fin m) /\ In m xs /\ forall y, In y xs -> (m <= y)%Q.
Proof.
  destruct xs as [|x xs]; [congruence|]. intros _. simpl.
  destruct (fold_fmin_Fin xs x) as (m & Hm & Hin & Hle & Hall).
  exists m. rewrite Hm. split; [reflexivity|]. split; [destruct Hin; auto|].
  intros y [<-|Hy]; auto.
Qed.

Lemma np_max_Fin xs :
  xs <> [] ->
  exists m, np_max (map Fin xs) = Ok (Fin m) /\ In m xs /\ forall y, In y xs -> (y <= m)%Q.
Proof.
  destruct xs as [|x xs]; [congruence|]. intros _. simpl.
  destruct (fold_fmax_Fin xs x) as (m & Hm & Hin & Hle & Hall).
  exists m. rewrite Hm. split; [reflexivity|]. split; [destruct Hin; auto|].
  intros y [<-|Hy]; auto.
Qed.








Lemma fsub64_Fin x y : fsub64 (Fin x) (Fin y) = round_to binary64 (x - y).
Proof. reflexivity. Qed.




(** [assemble] returns as soon as the arrays can be concatenated and no
    camera channel is empty. *)
Lemma assemble_total d name files :
  d !! data_path_of name = Some files ->
  Forall (fun f => nsteps (ep_latents f) <> O) files ->
  same_widths files ->
  whole ep_camera_distances files <> [] ->
  whole ep_azimuths files <> [] ->
  whole ep_elevations files <> [] ->
  exists a, assemble d (VStr name) = Ok a.
Proof.
  intros Hd Hsteps Hw Hcd Haz Hel.
  assert (files <> []) as Hne by (intros ->; now apply Hcd).
  assert (forall B (g : episode_file -> B), map g files <> []) as Hmne.
  { intros B g Hnil. apply map_eq_nil in Hnil. contradiction. }
  assert (forall channel, whole channel files <> [] ->
            exists b, normalize (concat (map channel files)) = Ok b)
    as Hnorm.
  { intros channel Hch. apply normalize_total. exact Hch. }
  destruct (Hnorm _ Hcd) as [cd Ecd]. destruct (Hnorm _ Haz) as [az Eaz].
  destruct (Hnorm _ Hel) as [el Eel].
  destruct (np_concatenate2_total
              (map (fun f => {| ncols := ndim (ep_latents f); rows := first_step_rows f |})
                 files)) as [lat Hlat]; [apply Hmne| |].
  { intros x y Hx Hy. apply in_map_iff in Hx as [f [<- Hf]].
    apply in_map_iff in Hy as [g [<- Hg]]. cbn. now apply Hw. }
  destruct (np_concatenate2_total (map ep_target_coords files))
    as [tc Htc]; [apply Hmne| |].
  { intros x y Hx Hy. apply in_map_iff in Hx as [f [<- Hf]].
    apply in_map_iff in Hy as [g [<- Hg]]. cbn. now apply Hw. }
  unfold assemble. unfold_bind. cbn [as_str]. unfold os_listdir.
  rewrite Hd. rewrite (read_files_total files no_columns Hsteps).
  cbn [columns_after no_columns col_latents col_camera_distances col_azimuths
       col_elevations col_target_coords app].
  rewrite Hlat, !np_concatenate1_total, Htc, Ecd, Eaz, Eel by apply Hmne.
  eauto.
Qed.






(** What the claim as worded misses: a range that overflows, and an entry
    that is not finite.  The distances [-2^1023] and [2^1023] differ, but
    their difference is not a binary64 number: it rounds to infinity, and
    the maximum is normalised to infinity over infinity, NaN.  (So are
    [-1e308] and [1e308].)  The same happens when the greatest distance is
    itself infinite. *)
Lemma normalized_maximum_can_be_nan :
  (np_min (whole ep_camera_distances [Toy.file_wide]) = Ok (Fin (- inject_Z (2 ^ 1023))) /\
   np_max (whole ep_camera_distances [Toy.file_wide]) = Ok (Fin (inject_Z (2 ^ 1023))) /\
   exists a,
     assemble Toy.wide (VStr "rgb_test") = Ok a /\
     as_camera_distances a = [Fin 0; NaN] /\
     as_azimuths a = [Fin 0; Fin 1] /\
     as_elevations a = [Fin 0; Fin 1] /\
     ~ Forall in_unit_interval (as_camera_distances a)) /\
  (np_min [Fin 0; PInf] = Ok (Fin 0) /\
   np_max [Fin 0; PInf] = Ok PInf /\
   normalize [Fin 0; PInf] = Ok [Fin 0; NaN]).
Proof.
  split; [|repeat split; vm_compute; reflexivity].
  split; [vm_compute; reflexivity|]. split; [vm_compute; reflexivity|].
  eexists. split; [vm_compute; reflexivity|]. cbn [as_camera_distances as_azimuths as_elevations].
  repeat split; try reflexivity.
  intros H. inversion H as [|? ? _ H']; subst. inversion H' as [|? ? Hnan _]; subst.
  exact Hnan.
Qed.

(** *** The fixed-camera mask *)

Lemma zip_and_map {A : Type} (f g : A -> bool) (l : list A) :
  zip_and (map f l) (map g l) = map (fun x => f x && g x) l.
Proof. induction l as [|x l IH]; simpl; [reflexivity|now rewrite IH]. Qed.

Lemma mask_mul_map {A : Type} (f g : A -> bool) (l : list A) :
  mask_mul (map f l) (map g l) = Ok (map (fun x => f x && g x) l).
Proof.
  unfold mask_mul. rewrite !length_map, Nat.eqb_refl. now rewrite zip_and_map.
Qed.

Lemma py_index_map_0 {A B : Type} (f : A -> B) (x : A) (l : list A) :
  py_index (map f (x :: l)) 0 = Ok (f x).
Proof.
  unfold py_index. cbn [map length].
  replace (0 <? 0) with false by reflexivity.
  replace ((0 <=? 0) && (0 <? Z.of_nat (S (length (map f l))))) with true; [reflexivity|].
  symmetry. apply andb_true_iff. split; [reflexivity|apply Z.ltb_lt; lia].
Qed.

(** C1 (what the code does).  The mask of the fixed-camera branch selects
    the samples whose distance equals the first sample's distance, whose
    ELEVATION equals the first sample's AZIMUTH and whose AZIMUTH equals the
    first sample's ELEVATION.  On the toy file, whose samples have the
    normalised triplets (0,0,1), (0,1,0) and (1,0,0), the mask is
    [false; true; false]: [load_dataset] returns the second sample alone,
    whose triplet differs from the first sample's, and drops the first
    sample itself. *)
Theorem fixed_camera_mask_swaps_azimuth_and_elevation :
  (forall (s0 : triplet) (rest : list triplet),
     fixed_camera_mask (distances_of (s0 :: rest)) (azimuths_of (s0 :: rest))
       (elevations_of (s0 :: rest))
     = Ok (map (fun s => feqb (fst (fst s)) (fst (fst s0))
                         && feqb (snd s) (snd (fst s0))
                         && feqb (snd (fst s)) (snd s0)) (s0 :: rest))) /\
  (exists a,
     assemble Toy.the_disk (VStr "rgb_test") = Ok a /\
     as_camera_distances a = [Fin 0; Fin 0; Fin 1] /\
     as_azimuths a = [Fin 0; Fin 1; Fin 0] /\
     as_elevations a = [Fin 1; Fin 0; Fin 0] /\
     fixed_camera_mask (as_camera_distances a) (as_azimuths a) (as_elevations a)
       = Ok [false; true; false]) /\
  load_dataset Toy.the_disk (fun _ => 0) (VStr "rgb_test") (VBool true) (VBool false)
    = Ok {| inputs_of := {| ncols := 1; rows := [[Fin 20]] |};
            targets_of := {| ncols := 3; rows := [[Fin 2; Fin 2; Fin 2]] |} |}.
Proof.
  split; [|split].
  - intros s0 rest. unfold fixed_camera_mask.
    unfold distances_of, azimuths_of, elevations_of.
    rewrite !py_index_map_0. unfold_bind.
    rewrite !map_map, mask_mul_map, mask_mul_map. reflexivity.
  - eexists. split; [vm_compute; reflexivity|]. cbn. repeat split; reflexivity.
  - vm_compute. reflexivity.
Qed.

(** *** The debug subsample *)

Lemma random_integers_range raw low high size :
  low <= high ->
  length (random_integers raw low high size) = size /\
  forall i, In i (random_integers raw low high size) -> low <= i <= high.
Proof.
  intros Hle. unfold random_integers. split; [rewrite length_map; apply length_seq|].
  intros i Hi. apply in_map_iff in Hi as [k [<- _]].
  pose proof (Z.mod_pos_bound (raw k) (high - low + 1) ltac:(lia)). lia.
Qed.

Lemma py_index_out_of_range {A : Type} (l : list A) :
  py_index l (Z.of_nat (length l)) = Err IndexError.
Proof.
  unfold py_index.
  destruct (Z.of_nat (length l) <? 0) eqn:E; [apply Z.ltb_lt in E; lia|].
  rewrite Z.ltb_irrefl, andb_false_r. reflexivity.
Qed.

(** C2 (what the code does).  The ten debug indices are drawn from the
    closed range [0..n], with [n] the number of rows: there are always ten
    of them, each is at most [n], and the value [n] itself, one past the
    last row, can be drawn.  For every array there is a generator state on
    which the subsample raises [IndexError]; on the three-sample toy
    dataset the draw 3 does so. *)
Theorem debug_subsample_can_index_out_of_bounds :
  (forall raw (n : nat),
     length (random_integers raw 0 (Z.of_nat n) 10) = 10%nat /\
     forall i, In i (random_integers raw 0 (Z.of_nat n) 10) -> 0 <= i <= Z.of_nat n) /\
  (forall inputs target_coords : ndarray2 npfloat,
     exists raw,
       In (Z.of_nat (nrows inputs)) (random_integers raw 0 (Z.of_nat (nrows inputs)) 10) /\
       debug_subsample raw (VBool true) inputs target_coords = Err IndexError) /\
  random_integers (fun _ => 3) 0 3 10 = [3; 3; 3; 3; 3; 3; 3; 3; 3; 3] /\
  load_dataset Toy.the_disk (fun _ => 3) (VStr "rgb_test") (VBool false) (VBool true)
    = Err IndexError.
Proof.
  split; [|split; [|split]].
  - intros raw n. apply random_integers_range. lia.
  - intros inputs target_coords. exists (fun _ => Z.of_nat (nrows inputs)).
    assert (random_integers (fun _ => Z.of_nat (nrows inputs)) 0 (Z.of_nat (nrows inputs)) 10
            = repeat (Z.of_nat (nrows inputs)) 10) as Hdraw.
    { unfold random_integers. cbn [seq map repeat].
      rewrite Z.mod_small by lia. reflexivity. }
    split; [rewrite Hdraw; now left|].
    unfold debug_subsample, take_rows. cbn [truthy]. rewrite Hdraw.
    cbn [repeat mapM]. unfold nrows. rewrite py_index_out_of_range. reflexivity.
  - vm_compute. reflexivity.
  - vm_compute. reflexivity.
Qed.

(** ** The training loop *)

Section LoopFacts.
Context `{C : Collaborators}.

Lemma M_bind_inv {A B : Type} (m : M A) (f : A -> M B) log r :
  m ≫= f = (log, r) ->
  (exists e, m = (log, Err e) /\ r = Err e) \/
  (exists l1 a l2, m = (l1, Ok a) /\ f a = (l2, r) /\ log = l1 ++ l2).
Proof.
  destruct m as [l1 [a|e]]; unfold mbind, M_bind.
  - destruct (f a) as [l2 r'] eqn:E. intros H. injection H as <- <-.
    right. exists l1, a, l2. auto.
  - intros H. injection H as <- <-. left. eauto.
Qed.

Lemma M_bind_Ok {A B : Type} (m : M A) (f : A -> M B) log b :
  m ≫= f = (log, Ok b) ->
  exists l1 a l2, m = (l1, Ok a) /\ f a = (l2, Ok b) /\ log = l1 ++ l2.
Proof.
  intros H. apply M_bind_inv in H as [[e [_ He]]|H]; [discriminate|exact H].
Qed.

Lemma lift_bind_Ok {A B : Type} (r : result A) (f : A -> M B) log b :
  lift r ≫= f = (log, Ok b) -> exists a, r = Ok a /\ f a = (log, Ok b).
Proof.
  intros H. apply M_bind_Ok in H as (l1 & a & l2 & Hr & Hf & ->).
  unfold lift in Hr. injection Hr as <- ->. eauto.
Qed.

Lemma emit_bind_Ok {B : Type} (ev : event) (f : unit -> M B) log b :
  emit ev ≫= f = (log, Ok b) -> exists l, f tt = (l, Ok b) /\ log = ev :: l.
Proof.
  intros H. apply M_bind_Ok in H as (l1 & a & l2 & Hr & Hf & ->).
  unfold emit in Hr. injection Hr as <- <-. eauto.
Qed.

(** A property of every event of a computation, whatever its outcome. *)
Definition log_all {A : Type} (P : event -> Prop) (m : M A) : Prop :=
  List.Forall P (fst m).

Lemma log_all_bind {A B : Type} P (m : M A) (f : A -> M B) :
  log_all P m -> (forall a, log_all P (f a)) -> log_all P (m ≫= f).
Proof.
  unfold log_all. destruct m as [l1 [a|e]]; unfold mbind, M_bind; cbn; intros Hm Hf; auto.
  specialize (Hf a). destruct (f a) as [l2 r]. cbn in *.
  apply List.Forall_app. auto.
Qed.

Lemma log_all_lift {A : Type} P (r : result A) : log_all P (lift r).
Proof. constructor. Qed.

Lemma log_all_ret {A : Type} P (a : A) : log_all P (mret a : M A).
Proof. constructor. Qed.

Lemma log_all_emit P ev : P ev -> log_all P (emit ev).
Proof. intros H. repeat constructor. exact H. Qed.

Lemma log_all_for_each {S A : Type} P (body : S -> A -> M S) (l : list A) :
  (forall s x, log_all P (body s x)) -> forall s, log_all P (for_each body l s).
Proof.
  intros Hb. induction l as [|x l IH]; intros s; simpl.
  - apply log_all_ret.
  - apply log_all_bind; auto.
Qed.

End LoopFacts.

(** Goals [log_all P m] for a straight-line [m]: one step per bind. *)
Ltac log_all_step :=
  first
    [ apply log_all_lift
    | apply log_all_ret
    | apply log_all_emit
    | apply log_all_for_each; intros
    | apply log_all_bind; [|intros] ].

(** ** The pose handed to the kinematics function *)

Section KinematicsFacts.
Context `{C : Collaborators}.

Lemma log_all_impl {A : Type} (P Q : event -> Prop) (m : M A) :
  (forall ev, P ev -> Q ev) -> log_all P m -> log_all Q m.
Proof. unfold log_all. intros HPQ. apply List.Forall_impl. exact HPQ. Qed.

Lemma train_batch_log action_vae st latent_1 target_pose last_pose :
  slice_last_step (to_trajectory action_vae
     (decoder action_vae (forward (ps_policy st) latent_1))) = Ok last_pose ->
  fst (train_batch action_vae st (latent_1, target_pose))
    = [EvKinematics (unnormalize last_pose); EvOptimizerStep].
Proof.
  intros H. unfold train_batch. rewrite H. unfold_bind. cbn.
  destruct (backward_step _ _ _ _ _). reflexivity.
Qed.

Lemma val_batch_log action_vae st latent_1 target_pose last_pose :
  slice_last_step (to_trajectory action_vae
     (decoder action_vae (forward (ps_policy st) latent_1))) = Ok last_pose ->
  val_batch action_vae st (latent_1, target_pose)
    = ([EvKinematics (unnormalize last_pose)],
       Ok {| ps_policy := ps_policy st; ps_optimizer := ps_optimizer st;
             ps_losses := ps_losses st ++
               [mse_loss (end_effector_pose (unnormalize last_pose)) target_pose];
             ps_end_poses := (ps_end_poses st ++
               [end_effector_pose (unnormalize last_pose)]) ++
               [end_effector_pose (unnormalize last_pose)];
             ps_target_poses := ps_target_poses st ++ [target_pose];
             ps_latents := ps_latents st ++ [forward (ps_policy st) latent_1] |}).
Proof.
  intros H. unfold val_batch. rewrite H. reflexivity.
Qed.

Lemma last_is_nth {A : Type} (l : list A) (d : A) :
  List.last l d = nth (Nat.pred (length l)) l d.
Proof.
  induction l as [|x l IH]; [reflexivity|].
  destruct l as [|y l]; [reflexivity|].
  change (List.last (x :: y :: l) d) with (List.last (y :: l) d). rewrite IH. reflexivity.
Qed.

(** On a trajectory batch whose data agrees with its shape, [t[:, :, -1]]
    is the entry at index [time steps - 1] of every joint. *)
Lemma slice_last_step_wf (t : ndarray3 npfloat) :
  wf_array3 t -> ndim t <> O ->
  slice_last_step t = Ok {| ncols := nsteps t; rows := last_time_step t |}.
Proof.
  intros Hwf Hn. unfold slice_last_step, last_time_step.
  destruct (ndim t) as [|n] eqn:E; [congruence|]. do 2 f_equal.
  unfold wf_array3 in Hwf. rewrite List.Forall_forall in Hwf.
  apply map_ext_in. intros sample Hs. apply map_ext_in. intros angles Ha.
  destruct (Hwf sample Hs) as [_ Hang]. rewrite List.Forall_forall in Hang.
  rewrite last_is_nth, (Hang angles Ha), E. reflexivity.
Qed.

Lemma slice_last_step_Ok (t : ndarray3 npfloat) last_pose :
  slice_last_step t = Ok last_pose ->
  ndim t <> O /\ (wf_array3 t -> unnormalize last_pose = expected_joint_pose t).
Proof.
  intros H.
  assert (ndim t <> O) as Hn.
  { unfold slice_last_step in H. destruct (ndim t); [discriminate|congruence]. }
  split; [exact Hn|]. intros Hwf.
  rewrite (slice_last_step_wf t Hwf Hn) in H. injection H as <-. reflexivity.
Qed.

Lemma train_batch_kinematics action_vae st batch :
  log_all (kinematics_input_ok action_vae) (train_batch action_vae st batch).
Proof.
  destruct batch as [latent_1 target_pose]. unfold log_all.
  destruct (slice_last_step (to_trajectory action_vae
              (decoder action_vae (forward (ps_policy st) latent_1)))) as [lp|e] eqn:E.
  - rewrite (train_batch_log _ _ _ _ _ E).
    constructor; [|constructor; [exact I|constructor]].
    exists (ps_policy st), latent_1. exact (slice_last_step_Ok _ _ E).
  - unfold train_batch. rewrite E. constructor.
Qed.

Lemma val_batch_kinematics action_vae st batch :
  log_all (kinematics_input_ok action_vae) (val_batch action_vae st batch).
Proof.
  destruct batch as [latent_1 target_pose]. unfold log_all.
  destruct (slice_last_step (to_trajectory action_vae
              (decoder action_vae (forward (ps_policy st) latent_1)))) as [lp|e] eqn:E.
  - rewrite (val_batch_log _ _ _ _ _ E).
    constructor; [|constructor].
    exists (ps_policy st), latent_1. exact (slice_last_step_Ok _ _ E).
  - unfold val_batch. rewrite E. constructor.
Qed.

Lemma run_epoch_kinematics action_vae rnd train_loader test_loader save_path st epoch :
  log_all (kinematics_input_ok action_vae)
    (run_epoch action_vae rnd train_loader test_loader save_path st epoch).
Proof.
  unfold run_epoch.
  repeat first
    [ apply train_batch_kinematics
    | apply val_batch_kinematics
    | apply log_all_emit; exact I
    | log_all_step
    | match goal with |- log_all _ (if ?c then _ else _) => destruct c end ].
Qed.

End KinematicsFacts.

(** C10.  In the training pass and in the validation pass alike, a batch
    whose decoded trajectory has at least one time step calls the
    kinematics function exactly once, on the pose that holds, for every
    sample and joint, the angle at the LAST time step (index
    [time steps - 1]) mapped through
    [(MAX_ANGLE - MIN_ANGLE) * x + MIN_ANGLE]; the end pose the pass records
    is the kinematics of that argument.  A trajectory without time steps
    raises [IndexError] before any kinematics call.  Every kinematics call
    of a whole run of [main] has an argument of this form. *)
Theorem kinematics_receives_unnormalized_last_pose `{C : Collaborators} :
  (forall action_vae st latent_1 target_pose,
     wf_array3 (decoded_trajectory action_vae (ps_policy st) latent_1) ->
     ndim (decoded_trajectory action_vae (ps_policy st) latent_1) <> O ->
     fst (train_batch action_vae st (latent_1, target_pose))
       = [EvKinematics
            (expected_joint_pose (decoded_trajectory action_vae (ps_policy st) latent_1));
          EvOptimizerStep] /\
     fst (val_batch action_vae st (latent_1, target_pose))
       = [EvKinematics
            (expected_joint_pose (decoded_trajectory action_vae (ps_policy st) latent_1))] /\
     (forall st', snd (train_batch action_vae st (latent_1, target_pose)) = Ok st' ->
        ps_end_poses st'
          = ps_end_poses st ++
            [end_effector_pose
               (expected_joint_pose
                  (decoded_trajectory action_vae (ps_policy st) latent_1))]) /\
     (forall st', snd (val_batch action_vae st (latent_1, target_pose)) = Ok st' ->
        ps_end_poses st'
          = (ps_end_poses st ++
             [end_effector_pose
                (expected_joint_pose
                   (decoded_trajectory action_vae (ps_policy st) latent_1))])
            ++ [end_effector_pose
                  (expected_joint_pose
                     (decoded_trajectory action_vae (ps_policy st) latent_1))])) /\
  (forall action_vae st latent_1 target_pose,
     ndim (decoded_trajectory action_vae (ps_policy st) latent_1) = O ->
     train_batch action_vae st (latent_1, target_pose) = ([], Err IndexError) /\
     val_batch action_vae st (latent_1, target_pose) = ([], Err IndexError)) /\
  (forall d rnd args,
     log_all (fun ev => exists vae_name latent_dim num_actions model_index num_joints,
                kinematics_input_ok
                  (ROSTrajectoryVAE vae_name latent_dim num_actions model_index num_joints
                     BEHAVIOUR_ROOT) ev)
       (main d rnd args)).
Proof.
  split; [|split].
  - intros action_vae st latent_1 target_pose Hwf Hn.
    pose proof (slice_last_step_wf _ Hwf Hn) as H. unfold decoded_trajectory in H.
    split; [exact (train_batch_log _ _ _ target_pose _ H)|].
    rewrite (val_batch_log _ _ _ target_pose _ H). split; [reflexivity|]. split.
    + unfold train_batch. rewrite H. unfold_bind. cbn.
      destruct (backward_step _ _ _ _ _). cbn. intros st' Hst. injection Hst as <-.
      reflexivity.
    + cbn. intros st' Hst. injection Hst as <-. reflexivity.
  - intros action_vae st latent_1 target_pose Hn. unfold decoded_trajectory in Hn.
    unfold train_batch, val_batch, slice_last_step. rewrite Hn. split; reflexivity.
  - intros d rnd args. unfold main.
    repeat first
      [ apply log_all_emit; exists VNone, VNone, VNone, VNone, VNone; exact I
      | match goal with
        | |- log_all _ (for_each (run_epoch ?vae _ _ _ _) _ _) =>
            apply log_all_for_each; intros;
            eapply log_all_impl; [|apply (run_epoch_kinematics vae)];
            intros ev Hev; cbn beta; eauto 10
        | |- log_all _ (if ?c then _ else _) => destruct c
        | |- log_all _ (let '(_, _) := ?p in _) => destruct p
        end
      | log_all_step ].
Qed.

(** With joints that turn between -3 and 3, a batch of two inputs and the
    toy decoder, whose trajectories have the two time steps [0; x]: the
    kinematics function receives [6 * x - 3] of the second step (27 for
    [x = 5]) for both samples, not the -3 of the first step. *)
Lemma kinematics_receives_unnormalized_last_pose_witness :
  decoded_trajectory (C := Toy.arm) Toy.vae (ps_policy Toy.arm_state) (fst Toy.batch)
    = {| nsteps := 1; ndim := 2; cells := [[[Fin 0; Fin 5]]; [[Fin 0; Fin 5]]] |} /\
  fst (train_batch (C := Toy.arm) Toy.vae Toy.arm_state (fst Toy.batch, snd Toy.batch))
    = [EvKinematics (C := Toy.arm) {| ncols := 1; rows := [[Fin 27]; [Fin 27]] |};
       EvOptimizerStep (C := Toy.arm)] /\
  fst (val_batch (C := Toy.arm) Toy.vae Toy.arm_state (fst Toy.batch, snd Toy.batch))
    = [EvKinematics (C := Toy.arm) {| ncols := 1; rows := [[Fin 27]; [Fin 27]] |}].
Proof.
  split; [reflexivity|].
  destruct (kinematics_receives_unnormalized_last_pose (C := Toy.arm)) as [H _].
  destruct (H Toy.vae Toy.arm_state (fst Toy.batch) (snd Toy.batch)) as (Ht & Hv & _).
  - repeat constructor.
  - discriminate.
  - rewrite Ht, Hv. split; reflexivity.
Defined.

(** * Further properties of the argument parser *)

(** The option string of a command-line argument. *)
Definition cli_option (item : cli_arg) : string :=
  match item with
  | Flag opt => opt
  | Opt opt _ => opt
  end.

(** The values an action of a given kind can store. *)
Definition kind_writes (k : action_kind) (v : value) : Prop :=
  match k with
  | store ty => value_has_type ty v = true
  | store_true => v = VBool true
  | store_false => v = VBool false
  | help => False
  end.

Section ParserInvariants.
Variable p : ArgumentParser.

Lemma find_action_In opt a :
  find_action p opt = Some a -> In a (actions p) /\ In opt (option_strings a).
Proof.
  unfold find_action. intros H. apply find_some in H as [Hin Hex]. split; [exact Hin|].
  apply existsb_exists in Hex as [o [Ho Heq]]. apply String.eqb_eq in Heq. now subst.
Qed.

(** Once something was not recognised, it stays so. *)
Lemma consume_extras_sticky argv : forall ns ns' extras',
  consume p argv ns true = Ok (ns', extras') -> extras' = true.
Proof.
  induction argv as [|item rest IH]; intros ns ns' extras' H; simpl in H.
  - now injection H as _ <-.
  - destruct item as [opt|opt v]; destruct (find_action p opt) as [a|]; eauto;
      destruct (kind a); try discriminate; eauto.
    destruct (value_has_type ty v); [eauto|discriminate].
Qed.

Lemma consume_unknown argv item : forall ns extras ns' extras',
  In item argv -> find_action p (cli_option item) = None ->
  consume p argv ns extras = Ok (ns', extras') -> extras' = true.
Proof.
  induction argv as [|x rest IH]; intros ns extras ns' extras' Hin Hnone H; [destruct Hin|].
  destruct Hin as [->|Hin].
  - simpl in H. destruct item as [opt|opt v]; cbn in Hnone; rewrite Hnone in H;
      eapply consume_extras_sticky; exact H.
  - simpl in H. destruct x as [opt|opt v]; destruct (find_action p opt) as [a|]; eauto;
      destruct (kind a); try discriminate; eauto.
    destruct (value_has_type ty v); [eauto|discriminate].
Qed.

(** An attribute no argument of the command line is registered for keeps
    the value it had. *)
Lemma consume_untouched k argv : forall ns extras ns' extras',
  (forall item a, In item argv -> find_action p (cli_option item) = Some a -> dest a <> k) ->
  consume p argv ns extras = Ok (ns', extras') ->
  ns' !! k = ns !! k.
Proof.
  induction argv as [|x rest IH]; intros ns extras ns' extras' Hk H; simpl in H.
  - now injection H as <- _.
  - assert (forall item a, In item rest -> find_action p (cli_option item) = Some a ->
              dest a <> k) as Hrest by (intros; eapply Hk; [right|]; eauto).
    destruct x as [opt|opt v]; destruct (find_action p opt) as [a|] eqn:Hf; eauto;
      assert (dest a <> k) as Hne
        by (eapply (Hk _ a); [left; reflexivity|exact Hf]);
      destruct (kind a); try discriminate;
      try (destruct (value_has_type ty v); [|discriminate]);
      erewrite IH by eauto; now rewrite lookup_insert_ne.
Qed.

(** An attribute holding a value with property [T] still does after the
    command line is read, when every action registered for it can only
    store such values. *)
Lemma consume_attr k (T : value -> Prop) argv : forall ns extras ns' extras',
  (forall a v, In a (actions p) -> dest a = k -> kind_writes (kind a) v -> T v) ->
  (exists v, ns !! k = Some v /\ T v) ->
  consume p argv ns extras = Ok (ns', extras') ->
  exists v, ns' !! k = Some v /\ T v.
Proof.
  induction argv as [|x rest IH]; intros ns extras ns' extras' HT Hns H; simpl in H.
  - now injection H as <- _.
  - assert (forall a v, find_action p (cli_option x) = Some a -> kind_writes (kind a) v ->
              exists w, <[dest a := v]> ns !! k = Some w /\ T w) as Hins.
    { intros a v Hf Hw. destruct (String.eqb_spec (dest a) k) as [Heq|Hne].
      - exists v. rewrite Heq, lookup_insert_eq. split; [reflexivity|].
        apply find_action_In in Hf as [Hin _]. eauto.
      - rewrite lookup_insert_ne by exact Hne. exact Hns. }
    destruct x as [opt|opt v]; cbn in Hins;
      destruct (find_action p opt) as [a|] eqn:Hf; eauto;
      destruct (kind a) eqn:Hkind; try discriminate;
      try (destruct (value_has_type ty v) eqn:Hty; [|discriminate]);
      (eapply IH; [exact HT| |exact H]); apply Hins; try reflexivity;
      rewrite Hkind; cbn; auto.
Qed.

End ParserInvariants.

(** A check that holds of the parser of every flag combination for which
    [build_parser] succeeds. *)
Definition all_flag_combinations : list (bool * bool * bool * bool * bool) :=
  b1 ← [true; false]; b2 ← [true; false]; b3 ← [true; false];
  b4 ← [true; false]; b5 ← [true; false]; [(b1, b2, b3, b4, b5)].

Definition holds_of_every_parser (check : ArgumentParser -> bool) : bool :=
  forallb (fun '(b1, b2, b3, b4, b5) =>
             match build_parser b1 b2 b3 b4 b5 with
             | Ok p => check p
             | Err _ => true
             end) all_flag_combinations.

Lemma holds_of_every_parser_sound check :
  holds_of_every_parser check = true ->
  forall b1 b2 b3 b4 b5 p, build_parser b1 b2 b3 b4 b5 = Ok p -> check p = true.
Proof.
  intros H b1 b2 b3 b4 b5 p Hp. unfold holds_of_every_parser in H.
  rewrite forallb_forall in H. specialize (H (b1, b2, b3, b4, b5)).
  cbn beta iota in H. rewrite Hp in H. apply H.
  destruct b1, b2, b3, b4, b5; cbn; auto 40.
Qed.

(** No action and no parser default declares the attribute [k]. *)
Definition undeclared (k : string) (p : ArgumentParser) : bool :=
  forallb (fun a => negb (String.eqb (dest a) k)) (actions p)
  && match defaults p !! k with Some _ => false | None => true end.

Lemma undeclared_absent k p argv ns :
  undeclared k p = true -> parse_args p argv = Ok ns -> ns !! k = None.
Proof.
  unfold undeclared. intros H Hp. apply andb_true_iff in H as [Ha Hd].
  assert (forall a, In a (actions p) -> dest a <> k) as Hno.
  { intros a Hin. rewrite forallb_forall in Ha. specialize (Ha a Hin).
    apply negb_true_iff, String.eqb_neq in Ha. exact Ha. }
  assert (defaults p !! k = None) as Hnone
    by (destruct (defaults p !! k); [discriminate|reflexivity]).
  exact (parse_args_absent p k Hno argv ns Hnone Hp).
Qed.

(** [fixed_camera], [num_epoch] and [num_processes], which [main] reads,
    are declared by no argument group. *)
Lemma no_group_declares_fixed_camera :
  holds_of_every_parser (undeclared "fixed_camera") = true.
Proof. vm_compute. reflexivity. Qed.

(** Every action registered for [k] stores values of type [ty] and is
    reached through the option string [opt] alone. *)
Definition declared_as (k : string) (ty : arg_type) (opt : string) (p : ArgumentParser)
    : bool :=
  forallb (fun a =>
             if String.eqb (dest a) k then
               match kind a, option_strings a with
               | store ty', [o] =>
                   String.eqb o opt &&
                   match ty, ty' with
                   | type_str, type_str | type_int, type_int | type_float, type_float => true
                   | _, _ => false
                   end
               | _, _ => false
               end
             else true) (actions p).

Lemma declared_as_sound k ty opt p a :
  declared_as k ty opt p = true -> In a (actions p) -> dest a = k ->
  kind a = store ty /\ option_strings a = [opt].
Proof.
  unfold declared_as. intros H Hin Hk. rewrite forallb_forall in H.
  specialize (H a Hin). rewrite Hk, String.eqb_refl in H.
  destruct (kind a) as [ty'| | |]; try discriminate.
  destruct (option_strings a) as [|o [|]]; try discriminate.
  apply andb_true_iff in H as [Ho Hty]. apply String.eqb_eq in Ho. subst o.
  destruct ty, ty'; try discriminate; auto.
Qed.

(** The parsers with the feed-forward group (and without the policy group,
    which conflicts with it). *)
Lemma feedforward_parser_facts bv g dbg p :
  build_parser bv false g dbg true = Ok p ->
  declared_as "model_index" type_int "--model-index" p = true /\
  declared_as "policy_name" type_str "--policy-name" p = true /\
  initial_namespace p !! "model_index" = Some (VInt (-1)) /\
  initial_namespace p !! "policy_name" = Some (VStr "example").
Proof.
  intros Hp. destruct bv, g, dbg; vm_compute in Hp; injection Hp as <-;
    repeat split; vm_compute; reflexivity.
Qed.

Lemma feedforward_namespace bv g dbg argv ns :
  parse_arguments bv false g dbg true argv = Ok ns ->
  (exists z, ns !! "model_index" = Some (VInt z)) /\
  (exists s, ns !! "policy_name" = Some (VStr s)) /\
  ((forall item, In item argv -> cli_option item <> "--model-index") ->
   ns !! "model_index" = Some (VInt (-1))).
Proof.
  intros H. unfold parse_arguments in H. apply bind_Ok in H as [p [Hp H]].
  destruct (feedforward_parser_facts _ _ _ p Hp) as (Dm & Dn & Im & In_).
  unfold parse_args in H. apply bind_Ok in H as [[ns' extras] [Hc H]].
  destruct extras; [discriminate|]. injection H as <-.
  split; [|split].
  - assert (forall a v, In a (actions p) -> dest a = "model_index" ->
              kind_writes (kind a) v -> exists z, v = VInt z) as HT.
    { intros a v Hin Hd Hw. destruct (declared_as_sound _ _ _ _ a Dm Hin Hd) as [Hk _].
      rewrite Hk in Hw. cbn in Hw. destruct v; try discriminate. eauto. }
    destruct (consume_attr p "model_index" (fun v => exists z, v = VInt z) argv
                (initial_namespace p) false ns' false HT) as [v [Hv [z ->]]]; eauto.
  - assert (forall a v, In a (actions p) -> dest a = "policy_name" ->
              kind_writes (kind a) v -> exists s, v = VStr s) as HT.
    { intros a v Hin Hd Hw. destruct (declared_as_sound _ _ _ _ a Dn Hin Hd) as [Hk _].
      rewrite Hk in Hw. cbn in Hw. destruct v; try discriminate. eauto. }
    destruct (consume_attr p "policy_name" (fun v => exists s, v = VStr s) argv
                (initial_namespace p) false ns' false HT) as [v [Hv [s ->]]]; eauto.
  - intros Hno. rewrite <- Im. eapply consume_untouched; [|exact Hc].
    intros item a Hin Hf Hd. apply find_action_In in Hf as [Ha Ho].
    destruct (declared_as_sound _ _ _ _ a Dm Ha Hd) as [_ Hos].
    rewrite Hos in Ho. destruct Ho as [Ho|[]]. apply (Hno item Hin). now symmetry.
Qed.

Lemma build_parser_conflict (behavioural_vae gibson debug : bool) :
  build_parser behavioural_vae true gibson debug true = Err (ArgumentError "--random-goal").
Proof. destruct behavioural_vae, gibson, debug; vm_compute; reflexivity. Qed.

(** X1.  The policy group and the feed-forward group both register
    [--random-goal]: asked for both, [parse_arguments] raises the parser's
    conflict error whatever the other flags and the command line are. *)
Theorem policy_and_feedforward_groups_conflict (behavioural_vae gibson debug : bool)
    (argv : list cli_arg) :
  parse_arguments behavioural_vae true gibson debug true argv
    = Err (ArgumentError "--random-goal").
Proof.
  unfold parse_arguments.
  rewrite (build_parser_conflict behavioural_vae gibson debug). reflexivity.
Qed.

(** X2.  With the feed-forward group, every namespace [parse_arguments]
    returns holds an integer [model_index] and a string [policy_name], and
    [model_index] is the default -1 unless the command line gives
    [--model-index]. *)
Theorem feedforward_namespace_is_typed (behavioural_vae gibson debug : bool)
    (argv : list cli_arg) (ns : namespace) :
  parse_arguments behavioural_vae false gibson debug true argv = Ok ns ->
  (exists z, ns !! "model_index" = Some (VInt z)) /\
  (exists s, ns !! "policy_name" = Some (VStr s)) /\
  ((forall item, In item argv -> cli_option item <> "--model-index") ->
   ns !! "model_index" = Some (VInt (-1))).
Proof. apply feedforward_namespace. Qed.

(** * [main] on the namespaces the parser can return *)

(** Events that precede the reading of the dataset. *)
Definition setup_event `{C : Collaborators} (ev : event) : Prop :=
  match ev with
  | EvSaveArguments _ | EvLoadVAE _ => True
  | _ => False
  end.

Lemma main_with_nonpositive_index `{C : Collaborators} d rnd (args : namespace) s z :
  args !! "policy_name" = Some (VStr s) ->
  args !! "model_index" = Some (VInt z) ->
  z <= 0 ->
  main d rnd args = ([EvSaveArguments (os_path_join "../policy_log" s)], Err AssertionError).
Proof.
  intros Hn Hm Hz. unfold main, getattr. rewrite Hn. cbn. rewrite Hm. cbn.
  destruct (0 <? z) eqn:E; [apply Z.ltb_lt in E; lia|]. reflexivity.
Qed.

(** Without a [fixed_camera] attribute, [main] stops with an exception
    before it reads the dataset. *)
Lemma main_without_fixed_camera `{C : Collaborators} d rnd (args : namespace) :
  args !! "fixed_camera" = None ->
  (forall v, args !! "policy_name" = Some v -> exists s, v = VStr s) ->
  (forall v, args !! "model_index" = Some v -> exists z, v = VInt z) ->
  exists e,
    snd (main d rnd args) = Err e /\
    (e = AssertionError \/ exists k, e = AttributeError k) /\
    List.Forall setup_event (fst (main d rnd args)).
Proof.
  intros Hfc Hn Hm. unfold main, getattr. rewrite Hfc.
  destruct (args !! "policy_name") as [pn|]; cbn;
    [|eexists; split; [reflexivity|split; [eauto|constructor]]].
  destruct (Hn pn eq_refl) as [s ->]. cbn.
  destruct (args !! "model_index") as [mi|]; cbn;
    [|eexists; split; [reflexivity|split; [eauto|repeat constructor]]].
  destruct (Hm mi eq_refl) as [z ->]. cbn.
  destruct (0 <? z); cbn;
    [|eexists; split; [reflexivity|split; [eauto|repeat constructor]]].
  destruct (args !! "vae_name"); cbn;
    [|eexists; split; [reflexivity|split; [eauto|repeat constructor]]].
  destruct (args !! "latent_dim"); cbn;
    [|eexists; split; [reflexivity|split; [eauto|repeat constructor]]].
  destruct (args !! "num_actions"); cbn;
    [|eexists; split; [reflexivity|split; [eauto|repeat constructor]]].
  destruct (args !! "num_joints"); cbn;
    [|eexists; split; [reflexivity|split; [eauto|repeat constructor]]].
  destruct (args !! "g_name"); cbn;
    eexists; (split; [reflexivity|split; [eauto|repeat constructor]]).
Qed.

(** X3.  Parsed with the feed-forward group and a command line that does
    not give [--model-index], the arguments make [main] save them and then
    fail its assertion: the default index -1 is not positive. *)
Theorem default_model_index_fails_the_assertion `{C : Collaborators}
    (behavioural_vae gibson debug : bool) (argv : list cli_arg) (ns : namespace)
    (d : disk) (rnd : randomness) :
  parse_arguments behavioural_vae false gibson debug true argv = Ok ns ->
  (forall item, In item argv -> cli_option item <> "--model-index") ->
  exists s,
    ns !! "policy_name" = Some (VStr s) /\
    main d rnd ns
      = ([EvSaveArguments (os_path_join "../policy_log" s)], Err AssertionError).
Proof.
  intros Hp Hno.
  destruct (feedforward_namespace _ _ _ _ _ Hp) as (_ & [s Hs] & Hdefault).
  exists s. split; [exact Hs|].
  apply (main_with_nonpositive_index d rnd ns s (-1)); auto. lia.
Qed.

(** The feed-forward parser alone, with another policy name on the
    command line. *)
Lemma default_model_index_fails_the_assertion_witness :
  exists ns,
    parse_arguments false false false false true [Opt "--policy-name" (VStr "run7")] = Ok ns /\
    main (C := Toy.collaborators) Toy.the_disk Toy.rnd ns
      = ([EvSaveArguments "../policy_log/run7"], Err AssertionError).
Proof.
  assert (lookup_parsed
            (parse_arguments false false false false true
               [Opt "--policy-name" (VStr "run7")]) "policy_name"
          = Some (VStr "run7")) as Hname by (vm_compute; reflexivity).
  destruct (parse_arguments false false false false true [Opt "--policy-name" (VStr "run7")])
    as [ns|e] eqn:E; [|discriminate Hname].
  exists ns. split; [reflexivity|].
  destruct (default_model_index_fails_the_assertion (C := Toy.collaborators)
              false false false [Opt "--policy-name" (VStr "run7")] ns Toy.the_disk Toy.rnd E)
    as [s [Hs Hmain]].
  - intros item [<-|[]]. discriminate.
  - cbn [lookup_parsed] in Hname. rewrite Hs in Hname. injection Hname as ->.
    exact Hmain.
Defined.

(** X4.  No argument group declares [fixed_camera]: whatever the five
    flags and the command line, [main] on a namespace that [parse_arguments]
    returned ends with an [AttributeError] or the failed assertion, having
    at most saved the arguments and loaded the VAE; it never reads the
    dataset, runs a batch, writes a checkpoint or plots. *)
Theorem main_never_reads_the_dataset_on_parsed_arguments `{C : Collaborators}
    (behavioural_vae policy gibson debug feedforward : bool) (argv : list cli_arg)
    (ns : namespace) (d : disk) (rnd : randomness) :
  parse_arguments behavioural_vae policy gibson debug feedforward argv = Ok ns ->
  exists e,
    snd (main d rnd ns) = Err e /\
    (e = AssertionError \/ exists k, e = AttributeError k) /\
    List.Forall setup_event (fst (main d rnd ns)).
Proof.
  intros Hp.
  assert (ns !! "fixed_camera" = None) as Hfc.
  { unfold parse_arguments in Hp. apply bind_Ok in Hp as [p [Hb Hp]].
    eapply undeclared_absent; [|exact Hp].
    exact (holds_of_every_parser_sound _ no_group_declares_fixed_camera _ _ _ _ _ p Hb). }
  apply main_without_fixed_camera; [exact Hfc| |].
  - destruct feedforward.
    + destruct policy;
        [unfold parse_arguments in Hp; rewrite build_parser_conflict in Hp; discriminate|].
      destruct (feedforward_namespace _ _ _ _ _ Hp) as (_ & [s Hs] & _).
      intros v Hv. rewrite Hs in Hv. injection Hv as <-. eauto.
    + intros v Hv. exfalso.
      unfold parse_arguments in Hp. apply bind_Ok in Hp as [p [Hb Hp]].
      assert (undeclared "policy_name" p = true) as Hu.
      { destruct behavioural_vae, policy, gibson, debug; vm_compute in Hb;
          injection Hb as <-; vm_compute; reflexivity. }
      rewrite (undeclared_absent _ _ _ _ Hu Hp) in Hv. discriminate.
  - destruct feedforward.
    + destruct policy;
        [unfold parse_arguments in Hp; rewrite build_parser_conflict in Hp; discriminate|].
      destruct (feedforward_namespace _ _ _ _ _ Hp) as ([z Hz] & _ & _).
      intros v Hv. rewrite Hz in Hv. injection Hv as <-. eauto.
    + intros v Hv. exfalso.
      unfold parse_arguments in Hp. apply bind_Ok in Hp as [p [Hb Hp]].
      assert (undeclared "model_index" p = true) as Hu.
      { destruct behavioural_vae, policy, gibson, debug; vm_compute in Hb;
          injection Hb as <-; vm_compute; reflexivity. }
      rewrite (undeclared_absent _ _ _ _ Hu Hp) in Hv. discriminate.
Qed.

(** All groups but the policy group, and a positive model index on the
    command line: [main] gets as far as loading the VAE. *)
Lemma main_never_reads_the_dataset_on_parsed_arguments_witness :
  exists ns,
    parse_arguments true false true true true [Opt "--model-index" (VInt 3)] = Ok ns /\
    ns !! "model_index" = Some (VInt 3) /\
    exists e,
      snd (main (C := Toy.collaborators) Toy.the_disk Toy.rnd ns) = Err e /\
      (e = AssertionError \/ exists k, e = AttributeError k) /\
      List.Forall setup_event (fst (main (C := Toy.collaborators) Toy.the_disk Toy.rnd ns)).
Proof.
  assert (lookup_parsed
            (parse_arguments true false true true true [Opt "--model-index" (VInt 3)])
            "model_index"
          = Some (VInt 3)) as Hindex by (vm_compute; reflexivity).
  destruct (parse_arguments true false true true true [Opt "--model-index" (VInt 3)])
    as [ns|e] eqn:E; [|discriminate Hindex].
  exists ns. split; [reflexivity|]. split; [exact Hindex|].
  exact (main_never_reads_the_dataset_on_parsed_arguments (C := Toy.collaborators)
           true false true true true _ ns Toy.the_disk Toy.rnd E).
Defined.

(** X5.  An option that the built parser does not know makes
    [parse_arguments] exit instead of returning a namespace, wherever it
    stands on the command line; in particular the training script's entry
    point rejects [--model-index]. *)
Theorem unknown_option_is_rejected
    (behavioural_vae policy gibson debug feedforward : bool) (p : ArgumentParser)
    (argv : list cli_arg) (item : cli_arg) :
  build_parser behavioural_vae policy gibson debug feedforward = Ok p ->
  In item argv ->
  find_action p (cli_option item) = None ->
  exists code,
    parse_arguments behavioural_vae policy gibson debug feedforward argv
      = Err (SystemExit code).
Proof.
  intros Hb Hin Hnone. unfold parse_arguments. rewrite Hb. unfold_bind. unfold parse_args.
  destruct (consume p argv (initial_namespace p) false) as [[ns extras]|e] eqn:Hc.
  - rewrite (consume_unknown p argv item _ _ _ _ Hin Hnone Hc). unfold_bind. eauto.
  - unfold_bind. clear Hin Hnone.
    assert (forall argv ns extras e,
              consume p argv ns extras = Err e -> exists code, e = SystemExit code) as Hexit.
    { clear. induction argv as [|x rest IH]; intros ns extras e H; simpl in H; [discriminate|].
      destruct x as [opt|opt v]; destruct (find_action p opt) as [a|]; eauto;
        destruct (kind a); eauto; try (injection H as <-; eauto).
      destruct (value_has_type ty v); eauto. injection H as <-; eauto. }
    destruct (Hexit _ _ _ _ Hc) as [code ->]. eauto.
Qed.

(** The entry point of the training script, given [--model-index 3]. *)
Lemma unknown_option_is_rejected_witness :
  parse_arguments true true true false false
    [Flag "--debug"; Opt "--model-index" (VInt 3)] = Err (SystemExit 2).
Proof.
  destruct (build_parser true true true false false) as [p|e] eqn:Hb;
    [|vm_compute in Hb; discriminate Hb].
  destruct (unknown_option_is_rejected true true true false false p
              [Flag "--debug"; Opt "--model-index" (VInt 3)] (Opt "--model-index" (VInt 3)) Hb)
    as [code Hcode].
  - right. now left.
  - vm_compute in Hb. injection Hb as <-. vm_compute. reflexivity.
  - rewrite Hcode. vm_compute in Hcode. symmetry. exact Hcode.
Defined.

(** * Further properties of the dataset assembler *)

Lemma read_files_no_time_step files : forall acc,
  Exists (fun f => nsteps (ep_latents f) = O) files ->
  read_files files acc = Err IndexError.
Proof.
  induction files as [|f files IH]; intros acc Hex; [inversion Hex|].
  simpl. unfold read_file, slice_first_step.
  destruct (nsteps (ep_latents f)) eqn:Hs; [reflexivity|].
  unfold_bind. apply IH. inversion Hex as [? ? Hf|? ? Hrest]; subst; [congruence|exact Hrest].
Qed.

(** X6.  [load_dataset] on a directory that does not exist raises
    [OSError]; on a directory without files it raises [ValueError] (there
    is nothing to concatenate); and when some file's latent array has no
    time step it raises [IndexError].  The camera mode and the debug flag
    make no difference. *)
Theorem load_dataset_needs_files_with_a_time_step (d : disk) (raw : nat -> Z)
    (name : string) (fixed_camera debug : value) :
  (d !! data_path_of name = None ->
   load_dataset d raw (VStr name) fixed_camera debug = Err OSError) /\
  (d !! data_path_of name = Some [] ->
   load_dataset d raw (VStr name) fixed_camera debug = Err ValueError) /\
  (forall files,
     d !! data_path_of name = Some files ->
     Exists (fun f => nsteps (ep_latents f) = O) files ->
     load_dataset d raw (VStr name) fixed_camera debug = Err IndexError).
Proof.
  unfold load_dataset, assemble. cbn [as_str]. unfold_bind. unfold os_listdir.
  split; [|split].
  - intros ->. reflexivity.
  - intros ->. reflexivity.
  - intros files -> Hex. rewrite (read_files_no_time_step files no_columns Hex). reflexivity.
Qed.

(** X7.  When the files can be read and concatenated but hold no camera
    distance at all (every file has zero samples), [load_dataset] raises
    [ValueError]: the minimum of a zero-size array does not exist. *)
Theorem load_dataset_without_samples (d : disk) (raw : nat -> Z) (name : string)
    (fixed_camera debug : value) (files : list episode_file) :
  d !! data_path_of name = Some files ->
  files <> [] ->
  Forall (fun f => nsteps (ep_latents f) <> O) files ->
  same_widths files ->
  whole ep_camera_distances files = [] ->
  load_dataset d raw (VStr name) fixed_camera debug = Err ValueError.
Proof.
  intros Hd Hne Hsteps Hw Hcd.
  assert (forall B (g : episode_file -> B), map g files <> []) as Hmne.
  { intros B g Hnil. apply map_eq_nil in Hnil. contradiction. }
  destruct (np_concatenate2_total
              (map (fun f => {| ncols := ndim (ep_latents f); rows := first_step_rows f |})
                 files)) as [lat Hlat]; [apply Hmne| |].
  { intros x y Hx Hy. apply in_map_iff in Hx as [f [<- Hf]].
    apply in_map_iff in Hy as [g [<- Hg]]. cbn. now apply Hw. }
  destruct (np_concatenate2_total (map ep_target_coords files))
    as [tc Htc]; [apply Hmne| |].
  { intros x y Hx Hy. apply in_map_iff in Hx as [f [<- Hf]].
    apply in_map_iff in Hy as [g [<- Hg]]. cbn. now apply Hw. }
  unfold load_dataset, assemble. unfold_bind. cbn [as_str]. unfold os_listdir.
  rewrite Hd. rewrite (read_files_total files no_columns Hsteps).
  cbn [columns_after no_columns col_latents col_camera_distances col_azimuths
       col_elevations col_target_coords app].
  rewrite Hlat, !np_concatenate1_total, Htc by apply Hmne.
  unfold whole in Hcd. rewrite Hcd. reflexivity.
Qed.

(** One file with a latent array of shape (0, 1, 1) and empty channels. *)
Lemma load_dataset_without_samples_witness :
  load_dataset
    {[ data_path_of "rgb_test" :=
         [ {| ep_latents := mkArray3 1 1 []; ep_camera_distances := [];
              ep_azimuths := []; ep_elevations := []; ep_unused := [];
              ep_target_coords := mkArray2 3 [] |} ] ]}
    (fun _ => 0) (VStr "rgb_test") (VBool false) (VBool false)
  = Err ValueError.
Proof.
  eapply load_dataset_without_samples.
  - vm_compute. reflexivity.
  - discriminate.
  - repeat constructor. discriminate.
  - intros f g [<-|[]] [<-|[]]. split; reflexivity.
  - reflexivity.
Defined.

(** *** A camera channel that does not vary *)

Lemma finite_constant (channel : list npfloat) (c : Q) :
  (forall x, In x channel -> feq x (Fin c)) ->
  exists xs, channel = map Fin xs /\ forall x, In x xs -> (x == c)%Q.
Proof.
  induction channel as [|x channel IH]; intros H.
  - exists []. split; [reflexivity|intros ? []].
  - destruct IH as (xs & -> & Hxs); [intros y Hy; apply H; now right|].
    pose proof (H x (or_introl eq_refl)) as Hx.
    destruct x as [q| | |]; try contradiction.
    exists (q :: xs). split; [reflexivity|]. intros y [<-|Hy]; [exact Hx|auto].
Qed.

Lemma normalize_constant (channel : list npfloat) (c : Q) :
  channel <> [] -> (forall x, In x channel -> feq x (Fin c)) ->
  normalize channel = Ok (map (fun _ => NaN) channel).
Proof.
  intros Hne Hc. destruct (finite_constant channel c Hc) as (xs & -> & Hxs).
  assert (xs <> []) as Hne' by (intros ->; now apply Hne).
  destruct (np_min_Fin xs Hne') as (m & Hmin & Hm & _).
  destruct (np_max_Fin xs Hne') as (M & Hmax & HM & _).
  unfold normalize. rewrite Hmin, Hmax. unfold_bind. rewrite !map_map. f_equal.
  apply map_ext_in. intros x Hx. rewrite !fsub64_Fin.
  assert (forall y, In y xs -> round_to binary64 (y - m) = Fin 0) as Hz.
  { intros y Hy. rewrite (round_to_Qeq binary64 (y - m) 0); [reflexivity|].
    rewrite (Hxs y Hy), (Hxs m Hm). ring. }
  rewrite (Hz M HM), (Hz x Hx). reflexivity.
Qed.

Lemma whole_length channel files :
  (forall f, In f files -> length (channel f) = sample_count f) ->
  length (whole channel files) = total_samples files.
Proof. intros H. unfold whole. now apply length_concat_map. Qed.

Lemma aligned_channels files :
  Forall aligned files ->
  Forall (fun f => nsteps (ep_latents f) <> O) files /\
  length (whole ep_camera_distances files) = total_samples files /\
  length (whole ep_azimuths files) = total_samples files /\
  length (whole ep_elevations files) = total_samples files.
Proof.
  intros Hal. rewrite List.Forall_forall in Hal. split.
  - apply List.Forall_forall. intros f Hf. apply (Hal f Hf).
  - repeat split; apply whole_length; intros f Hf; apply (Hal f Hf).
Qed.

(** A well-formed, non-empty set of files is assembled, and every array of
    the result has one entry per sample. *)
Lemma assemble_aligned d name files :
  d !! data_path_of name = Some files ->
  Forall aligned files -> same_widths files -> (0 < total_samples files)%nat ->
  exists a,
    assemble d (VStr name) = Ok a /\
    nrows (as_latents a) = total_samples files /\
    length (as_camera_distances a) = total_samples files /\
    length (as_azimuths a) = total_samples files /\
    length (as_elevations a) = total_samples files /\
    nrows (as_target_coords a) = total_samples files.
Proof.
  intros Hd Hal Hw Hpos.
  destruct (aligned_channels files Hal) as (Hsteps & Lcd & Laz & Lel).
  assert (forall l : list npfloat, length l = total_samples files -> l <> []) as Hne.
  { intros l Hl ->. cbn in Hl. lia. }
  destruct (assemble_total d name files Hd Hsteps Hw) as [a Ha]; auto.
  exists a. split; [exact Ha|].
  destruct (assemble_Ok d name files a Hd Ha) as (_ & _ & Hrows & _ & Ecd & Eaz & Eel & Htc).
  apply normalize_length in Ecd, Eaz, Eel.
  rewrite List.Forall_forall in Hal.
  split; [|split; [congruence|split; [congruence|split; [congruence|]]]].
  - unfold nrows. rewrite Hrows. apply length_concat_map.
    intros f _. unfold first_step_rows, sample_count. apply length_map.
  - unfold nrows. rewrite Htc. apply length_concat_map.
    intros f Hf. apply (Hal f Hf).
Qed.

Lemma constant_channel_normalizes_to_nan_lemma d name files (c : Q) a :
  d !! data_path_of name = Some files ->
  Forall aligned files ->
  same_widths files ->
  (0 < total_samples files)%nat ->
  assemble d (VStr name) = Ok a ->
  ((forall x, In x (whole ep_camera_distances files) -> feq x (Fin c)) ->
   as_camera_distances a = repeat NaN (total_samples files)) /\
  ((forall x, In x (whole ep_azimuths files) -> feq x (Fin c)) ->
   as_azimuths a = repeat NaN (total_samples files)) /\
  ((forall x, In x (whole ep_elevations files) -> feq x (Fin c)) ->
   as_elevations a = repeat NaN (total_samples files)).
Proof.
  intros Hd Hal Hw Hpos Ha.
  destruct (assemble_Ok d name files a Hd Ha) as (_ & _ & _ & _ & Ecd & Eaz & Eel & _).
  destruct (aligned_channels files Hal) as (_ & Lcd & Laz & Lel).
  assert (forall xs : list npfloat, length xs = total_samples files ->
            (forall x, In x xs -> feq x (Fin c)) ->
            normalize xs = Ok (repeat NaN (total_samples files))) as Hnan.
  { intros xs Hl Hc. rewrite (normalize_constant xs c); [| |exact Hc].
    - rewrite <- Hl. f_equal. clear. induction xs; simpl; congruence.
    - intros ->. cbn in Hl. lia. }
  repeat split; intros Hc.
  - rewrite (Hnan _ Lcd Hc) in Ecd. now injection Ecd.
  - rewrite (Hnan _ Laz Hc) in Eaz. now injection Eaz.
  - rewrite (Hnan _ Lel Hc) in Eel. now injection Eel.
Qed.

(** X8.  Degenerate normalisation: when a camera channel has the same
    value in every sample of every file, [max - min] is 0 and each of its
    normalised values is 0/0, that is NaN; the dataset is assembled all
    the same. *)
Theorem constant_channel_normalizes_to_nan (d : disk) (name : string)
    (files : list episode_file) (c : Q) :
  d !! data_path_of name = Some files ->
  Forall aligned files ->
  same_widths files ->
  (0 < total_samples files)%nat ->
  exists a,
    assemble d (VStr name) = Ok a /\
    ((forall x, In x (whole ep_camera_distances files) -> feq x (Fin c)) ->
     as_camera_distances a = repeat NaN (total_samples files)) /\
    ((forall x, In x (whole ep_azimuths files) -> feq x (Fin c)) ->
     as_azimuths a = repeat NaN (total_samples files)) /\
    ((forall x, In x (whole ep_elevations files) -> feq x (Fin c)) ->
     as_elevations a = repeat NaN (total_samples files)).
Proof.
  intros Hd Hal Hw Hpos.
  destruct (assemble_aligned d name files Hd Hal Hw Hpos) as (a & Ha & _).
  exists a. split; [exact Ha|].
  exact (constant_channel_normalizes_to_nan_lemma d name files c a Hd Hal Hw Hpos Ha).
Qed.

(** On the two-file disk the elevation is 5, 5 in the first file and 9 in
    the second: not constant.  With both files at elevation 5 it is. *)
Lemma constant_channel_normalizes_to_nan_witness :
  exists a,
    assemble {[ data_path_of "rgb_test" := [Toy.file_a; Toy.file_a] ]} (VStr "rgb_test")
      = Ok a /\
    as_elevations a = [NaN; NaN; NaN; NaN].
Proof.
  destruct (constant_channel_normalizes_to_nan
              {[ data_path_of "rgb_test" := [Toy.file_a; Toy.file_a] ]} "rgb_test"
              [Toy.file_a; Toy.file_a] 5) as (a & Ha & _ & _ & Hel).
  - vm_compute. reflexivity.
  - repeat constructor; cbn; discriminate.
  - intros f g [<-|[<-|[]]] [<-|[<-|[]]]; split; reflexivity.
  - cbn. lia.
  - exists a. split; [exact Ha|]. apply Hel.
    cbn. intros x Hx. repeat (destruct Hx as [<-|Hx]; [reflexivity|]). destruct Hx.
Defined.











(** *** The inputs of the two camera modes *)

Lemma zip_rows_lookup {A : Type} (a b : list (list A)) i r s :
  a !! i = Some r -> b !! i = Some s -> zip_rows a b !! i = Some (r ++ s).
Proof.
  revert b i. induction a as [|x a IH]; intros [|y b] [|i] Ha Hb; try discriminate.
  - cbn in *. congruence.
  - cbn in *. eauto.
Qed.

(** X10.  Variable-camera mode: when the three camera channels have one
    value per latent row, the inputs are the latent rows with the
    normalised distance, azimuth and elevation of the same sample appended,
    in this order; the inputs are three columns wider than the latents and
    the targets are passed on unchanged.  When a channel has another length
    the concatenation raises [ValueError]. *)
Theorem variable_camera_inputs_append_the_camera_values (a : assembled)
    (fixed_camera : value) :
  truthy fixed_camera = false ->
  (length (as_camera_distances a) = nrows (as_latents a) ->
   length (as_azimuths a) = nrows (as_latents a) ->
   length (as_elevations a) = nrows (as_latents a) ->
   exists inputs,
     select_inputs a fixed_camera = Ok (inputs, as_target_coords a) /\
     ncols inputs = (ncols (as_latents a) + 3)%nat /\
     nrows inputs = nrows (as_latents a) /\
     forall i r c az el,
       rows (as_latents a) !! i = Some r ->
       as_camera_distances a !! i = Some c ->
       as_azimuths a !! i = Some az ->
       as_elevations a !! i = Some el ->
       rows inputs !! i = Some (r ++ [c; az; el])) /\
  (length (as_camera_distances a) <> nrows (as_latents a) \/
   length (as_azimuths a) <> nrows (as_latents a) \/
   length (as_elevations a) <> nrows (as_latents a) ->
   select_inputs a fixed_camera = Err ValueError).
Proof.
  intros Hfc. unfold select_inputs. rewrite Hfc.
  assert (forall v : list npfloat, nrows (as_column v) = length v) as Hcol.
  { intros v. unfold nrows, as_column. cbn. apply length_map. }
  split.
  - intros Lcd Laz Lel.
    unfold np_concatenate_axis1. cbn [forallb fold_left].
    rewrite !Hcol, Lcd, Laz, Lel, Nat.eqb_refl. cbn [andb]. unfold_bind.
    eexists. split; [reflexivity|]. cbn [ncols rows as_column]. split; [lia|]. split.
    + unfold nrows. cbn [rows]. rewrite !length_zip_rows, !length_map.
      unfold nrows in *. lia.
    + intros i r c az el Hr Hc Ha He.
      assert (forall (v : list npfloat) x, v !! i = Some x ->
                map (fun y => [y]) v !! i = Some [x]) as Hone.
      { intros v x Hv. rewrite list_lookup_fmap, Hv. reflexivity. }
      rewrite (zip_rows_lookup _ _ i ((r ++ [c]) ++ [az]) [el]); [|
        apply zip_rows_lookup; [apply zip_rows_lookup|]; auto|auto].
      now rewrite <- !app_assoc.
  - intros Hbad. unfold np_concatenate_axis1. cbn [forallb]. rewrite !Hcol.
    destruct (Nat.eqb_spec (length (as_camera_distances a)) (nrows (as_latents a)));
      [|reflexivity].
    destruct (Nat.eqb_spec (length (as_azimuths a)) (nrows (as_latents a)));
      [|reflexivity].
    destruct (Nat.eqb_spec (length (as_elevations a)) (nrows (as_latents a)));
      [|reflexivity].
    exfalso. destruct Hbad as [H|[H|H]]; contradiction.
Qed.

(** On the two-file disk the second sample has latent 2 and the camera
    values 2, 3, 5, which normalise to 1/2, 1 and 0. *)
Lemma variable_camera_inputs_append_the_camera_values_witness :
  exists a inputs,
    assemble Toy.two_files (VStr "rgb_test") = Ok a /\
    select_inputs a (VBool false) = Ok (inputs, as_target_coords a) /\
    ncols inputs = 4%nat /\
    exists c az el,
      rows inputs !! 1%nat = Some ([Fin 2] ++ [c; az; el]) /\
      feq c (Fin (1 # 2)) /\ feq az (Fin 1) /\ feq el (Fin 0).
Proof.
  destruct (assemble Toy.two_files (VStr "rgb_test")) as [a|e] eqn:Ha;
    [|vm_compute in Ha; discriminate Ha].
  destruct (variable_camera_inputs_append_the_camera_values a (VBool false) eq_refl)
    as [Hok _].
  vm_compute in Ha. injection Ha as <-.
  destruct Hok as (inputs & Hsel & Hcols & _ & Hrow); try reflexivity.
  eexists _, inputs. split; [reflexivity|]. split; [exact Hsel|]. split; [exact Hcols|].
  eexists _, _, _. split; [apply Hrow; reflexivity|].
  repeat split; reflexivity.
Defined.

Lemma select_rows_combine {A B : Type} (l1 : list A) (l2 : list B) (mask : list bool) :
  combine (select_rows l1 mask) (select_rows l2 mask) = select_rows (combine l1 l2) mask.
Proof.
  revert l2 mask. induction l1 as [|x l1 IH]; intros l2 mask; [reflexivity|].
  destruct l2 as [|y l2].
  - cbn [combine]. replace (select_rows (@nil B) mask) with (@nil B) by (now destruct mask).
    rewrite combine_nil. now destruct mask.
  - destruct mask as [|b mask]; [reflexivity|].
    cbn [combine select_rows]. destruct b; cbn [combine]; now rewrite IH.
Qed.

Lemma length_select_rows {A : Type} (l : list A) (mask : list bool) :
  (length (select_rows l mask) <= length l)%nat.
Proof.
  revert mask. induction l as [|x l IH]; intros [|b mask]; simpl; try lia.
  specialize (IH mask). destruct b; simpl; lia.
Qed.

Lemma length_select_rows_same {A B : Type} (l1 : list A) (l2 : list B) (mask : list bool) :
  length l1 = length l2 ->
  length (select_rows l1 mask) = length (select_rows l2 mask).
Proof.
  revert l2 mask. induction l1 as [|x l1 IH]; intros [|y l2] [|b mask] H; simpl;
    try discriminate; auto.
  injection H as H. destruct b; simpl; auto.
Qed.

(** X11.  Fixed-camera mode: the inputs are latent rows only (no camera
    column is appended), inputs and targets are filtered by one and the
    same mask, so the pairs that remain are pairs of the assembled set, in
    their order, and there are at most as many as before.  A mask that is
    not as long as the latent array raises [IndexError]. *)
Theorem fixed_camera_inputs_stay_paired_with_targets (a : assembled)
    (fixed_camera : value) (mask : list bool) :
  truthy fixed_camera = true ->
  fixed_camera_mask (as_camera_distances a) (as_azimuths a) (as_elevations a) = Ok mask ->
  (length mask = nrows (as_latents a) ->
   nrows (as_target_coords a) = nrows (as_latents a) ->
   exists inputs targets,
     select_inputs a fixed_camera = Ok (inputs, targets) /\
     ncols inputs = ncols (as_latents a) /\
     ncols targets = ncols (as_target_coords a) /\
     combine (rows inputs) (rows targets)
       = select_rows (combine (rows (as_latents a)) (rows (as_target_coords a))) mask /\
     nrows inputs = nrows targets /\
     (nrows inputs <= nrows (as_latents a))%nat) /\
  (length mask <> nrows (as_latents a) ->
   select_inputs a fixed_camera = Err IndexError).
Proof.
  intros Hfc Hmask. unfold select_inputs. rewrite Hfc, Hmask. unfold_bind.
  unfold mask_index. split.
  - intros Hl Htc. rewrite Htc, Hl, Nat.eqb_refl. unfold_bind.
    eexists _, _. split; [reflexivity|]. cbn [ncols rows].
    split; [reflexivity|]. split; [reflexivity|].
    split; [apply select_rows_combine|]. unfold nrows in *. cbn [rows].
    split; [apply length_select_rows_same; congruence|apply length_select_rows].
  - intros Hl. apply Nat.eqb_neq in Hl. rewrite Hl. reflexivity.
Qed.

(** The toy file in fixed-camera mode: the mask keeps the second sample
    with its own target. *)
Lemma fixed_camera_inputs_stay_paired_with_targets_witness :
  exists a inputs targets,
    assemble Toy.the_disk (VStr "rgb_test") = Ok a /\
    select_inputs a (VBool true) = Ok (inputs, targets) /\
    combine (rows inputs) (rows targets) = [([Fin 20], [Fin 2; Fin 2; Fin 2])].
Proof.
  destruct (assemble Toy.the_disk (VStr "rgb_test")) as [a|e] eqn:Ha;
    [|vm_compute in Ha; discriminate Ha].
  vm_compute in Ha. injection Ha as <-.
  match goal with |- exists a inputs targets, _ = Ok a /\ _ =>
    eexists; cbn beta end.
  match goal with |- exists inputs targets, Ok ?a = Ok _ /\ _ =>
    destruct (fixed_camera_inputs_stay_paired_with_targets a (VBool true)
                [false; true; false] eq_refl eq_refl) as [Hok _]
  end.
  destruct Hok as (inputs & targets & Hsel & _ & _ & Hpairs & _); try reflexivity.
  exists inputs, targets. split; [reflexivity|]. split; [exact Hsel|exact Hpairs].
Defined.

(** The feed-forward parser alone, given [--model-index 4]. *)
Lemma feedforward_namespace_is_typed_witness :
  exists ns,
    parse_arguments false false false false true [Opt "--model-index" (VInt 4)] = Ok ns /\
    ns !! "model_index" = Some (VInt 4) /\
    (exists z, ns !! "model_index" = Some (VInt z)) /\
    (exists s, ns !! "policy_name" = Some (VStr s)).
Proof.
  assert (lookup_parsed
            (parse_arguments false false false false true [Opt "--model-index" (VInt 4)])
            "model_index"
          = Some (VInt 4)) as Hindex by (vm_compute; reflexivity).
  destruct (parse_arguments false false false false true [Opt "--model-index" (VInt 4)])
    as [ns|e] eqn:E; [|discriminate Hindex].
  exists ns. split; [reflexivity|].
  destruct (feedforward_namespace_is_typed false false false _ ns E) as (Hz & Hs & _).
  split; [exact Hindex|split; [exact Hz|exact Hs]].
Defined.
